(** * One-player Pong: the per-frame simulation of [w05Assignment.py]

    A shallow embedding of the classes [Point], [Velocity], [Ball], [Paddle]
    and [Pong], followed by the properties of the frame update.

    Numbers.  Every number the program stores is an integer value: the
    module constants are integers, [randint] returns integers, the only
    true divisions ([PADDLE_WIDTH / 2], [PADDLE_HEIGHT / 2],
    [SCREEN_HEIGHT / 2]) divide an even constant by two, and the methods
    only add, subtract and multiply by [-1].  Coordinates, velocities and
    the score are therefore modelled in [Z]; [halves_are_exact] below
    records that the three divisions lose nothing.

    Effects.  Objects are records and a method that mutates [self] returns
    the updated record.  The module-level generator behind [randint] is
    the one piece of ambient state; it is threaded through a small
    state-and-exception monad [Rand].  Drawing (the [arcade] calls) is
    outside the simulation and is not modelled; the constructor of the
    window base class is a parameter of [Pong.init]. *)

From Stdlib Require Import ZArith QArith Bool List Lia.
Import ListNotations.
Open Scope Z_scope.

(** ** Global constants *)

Definition SCREEN_WIDTH : Z := 400.
Definition SCREEN_HEIGHT : Z := 300.
Definition BALL_RADIUS : Z := 10.

Definition PADDLE_WIDTH : Z := 10.
Definition PADDLE_HEIGHT : Z := 50.
Definition MOVE_AMOUNT : Z := 4.

Definition SCORE_HIT : Z := 1.
Definition SCORE_MISS : Z := 5.

(** ** The random generator and the [Rand] monad *)

(** The generator is an infinite sequence of raw draws and a cursor into
    it; a call of [randint] reads the draw under the cursor and moves the
    cursor on. *)
Record RandomSource : Type := mkRandom { draws : nat -> Z; cursor : nat }.

Definition next (r : RandomSource) : RandomSource :=
  mkRandom (draws r) (S (cursor r)).

(** Python exceptions the modelled code can raise: [random.randint]
    raises [ValueError] on an empty range, and a call into the windowing
    library may raise an exception of that library, told apart here by a
    code. *)
Inductive exn : Type :=
| ValueError
| External (code : Z).

Inductive result (A : Type) : Type :=
| Ok (a : A)
| Raise (e : exn).

Arguments Ok {A} a.
Arguments Raise {A} e.

Definition Rand (A : Type) : Type := RandomSource -> result (A * RandomSource).

Definition ret {A : Type} (a : A) : Rand A := fun r => Ok (a, r).

Definition bind {A B : Type} (c : Rand A) (k : A -> Rand B) : Rand B :=
  fun r =>
    match c r with
    | Ok (a, r') => k a r'
    | Raise e => Raise e
    end.

Notation "x <- c ;; k" := (bind c (fun x => k))
  (at level 61, c at next level, right associativity).

(** [arcade.Window.__init__(width, height)], the constructor of the base
    class of [Pong].  It is code of the windowing library: whether it
    accepts a size or raises is not decided by this program, so it is a
    parameter of the model. *)
Definition WindowInit : Type := Z -> Z -> result unit.

(** [random.randint(a, b)]: an integer [N] with [a <= N <= b]; every such
    [N] is the answer for some raw draw. *)
Definition randint (a b : Z) : Rand Z :=
  fun r =>
    if b <? a then Raise ValueError
    else Ok (a + draws r (cursor r) mod (b - a + 1), next r).

(** ** class Point *)

Module Point.

Record t : Type := mk { x : Z; y : Z }.

(** [__init__]: both coordinates start at [0.0]. *)
Definition init : t := mk 0 0.

Definition set_x (v : Z) (self : t) : t := mk v (y self).
Definition set_y (v : Z) (self : t) : t := mk (x self) v.

End Point.

(** ** class Velocity *)

Module Velocity.

Record t : Type := mk { dx : Z; dy : Z }.

Definition init : t := mk 0 0.

Definition set_dx (v : Z) (self : t) : t := mk v (dy self).
Definition set_dy (v : Z) (self : t) : t := mk (dx self) v.

End Velocity.

(** ** class Ball *)

Module Ball.

Record t : Type := mk { center : Point.t; velocity : Velocity.t }.

(** [__init__]: on the left edge, at a random height, with a random
    velocity.  The three draws are made in the order of the source. *)
Definition init : Rand t :=
  let center := Point.set_x BALL_RADIUS Point.init in
  cy <- randint BALL_RADIUS (SCREEN_HEIGHT - BALL_RADIUS) ;;
  let center := Point.set_y cy center in
  let velocity := Velocity.init in
  vx <- randint MOVE_AMOUNT (2 * MOVE_AMOUNT) ;;
  let velocity := Velocity.set_dx vx velocity in
  vy <- randint (MOVE_AMOUNT - 2) (MOVE_AMOUNT - 1) ;;
  let velocity := Velocity.set_dy vy velocity in
  ret (mk center velocity).

Definition advance (self : t) : t :=
  let c := center self in
  let c := Point.set_x (Point.x c + Velocity.dx (velocity self)) c in
  let c := Point.set_y (Point.y c + Velocity.dy (velocity self)) c in
  mk c (velocity self).

Definition bounce_horizontal (self : t) : t :=
  mk (center self)
     (Velocity.set_dx (Velocity.dx (velocity self) * -1) (velocity self)).

Definition bounce_vertical (self : t) : t :=
  mk (center self)
     (Velocity.set_dy (Velocity.dy (velocity self) * -1) (velocity self)).

Definition restart (self : t) : Rand t :=
  let c := Point.set_x 0 (center self) in
  cy <- randint BALL_RADIUS (SCREEN_HEIGHT - BALL_RADIUS) ;;
  let c := Point.set_y cy c in
  vx <- randint MOVE_AMOUNT (2 * MOVE_AMOUNT) ;;
  let v := Velocity.set_dx vx (velocity self) in
  vy <- randint (MOVE_AMOUNT - 2) (MOVE_AMOUNT - 1) ;;
  let v := Velocity.set_dy vy v in
  ret (mk c v).

End Ball.

(** ** class Paddle *)

Module Paddle.

Record t : Type := mk { center : Point.t }.

Definition init : t :=
  let c := Point.init in
  let c := Point.set_x (SCREEN_WIDTH - PADDLE_WIDTH) c in
  let c := Point.set_y (SCREEN_HEIGHT / 2) c in
  mk c.

Definition move_up (self : t) : t :=
  if Point.y (center self) <? SCREEN_HEIGHT - PADDLE_HEIGHT / 2
  then mk (Point.set_y (Point.y (center self) + MOVE_AMOUNT) (center self))
  else self.

Definition move_down (self : t) : t :=
  if PADDLE_HEIGHT / 2 <? Point.y (center self)
  then mk (Point.set_y (Point.y (center self) - MOVE_AMOUNT) (center self))
  else self.

End Paddle.

(** ** class Pong *)

Module Pong.

Record t : Type := mk {
  ball : Ball.t;
  paddle : Paddle.t;
  score : Z;
  holding_left : bool;
  holding_right : bool
}.

Definition set_ball (b : Ball.t) (self : t) : t :=
  mk b (paddle self) (score self) (holding_left self) (holding_right self).

Definition set_paddle (p : Paddle.t) (self : t) : t :=
  mk (ball self) p (score self) (holding_left self) (holding_right self).

Definition set_score (s : Z) (self : t) : t :=
  mk (ball self) (paddle self) s (holding_left self) (holding_right self).

(** The statements of [__init__] after the base-class call: the ball, the
    paddle, the score and the two flags.  They read neither [width] nor
    [height].  (The closing [arcade.set_background_color] call sets up
    drawing and is not modelled.) *)
Definition init_body : Rand t :=
  b <- Ball.init ;;
  let p := Paddle.init in
  ret (mk b p 0 false false).

(** [__init__(width, height)]: [super().__init__(width, height)] first,
    which may raise, then the statements above. *)
Definition init (window_init : WindowInit) (width height : Z) : Rand t :=
  fun r =>
    match window_init width height with
    | Ok _ => init_body r
    | Raise e => Raise e
    end.

Definition check_hit (self : t) : t :=
  let too_close_x := PADDLE_WIDTH / 2 + BALL_RADIUS in
  let too_close_y := PADDLE_HEIGHT / 2 + BALL_RADIUS in
  if (Z.abs (Point.x (Ball.center (ball self))
             - Point.x (Paddle.center (paddle self))) <? too_close_x)
     && (Z.abs (Point.y (Ball.center (ball self))
                - Point.y (Paddle.center (paddle self))) <? too_close_y)
     && (0 <? Velocity.dx (Ball.velocity (ball self)))
  then
    let self := set_ball (Ball.bounce_horizontal (ball self)) self in
    set_score (score self + SCORE_HIT) self
  else self.

Definition check_miss (self : t) : Rand t :=
  if SCREEN_WIDTH <? Point.x (Ball.center (ball self))
  then
    let self := set_score (score self - SCORE_MISS) self in
    b <- Ball.restart (ball self) ;;
    ret (set_ball b self)
  else ret self.

Definition check_bounce (self : t) : t :=
  let self :=
    if (Point.x (Ball.center (ball self)) <? BALL_RADIUS)
       && (Velocity.dx (Ball.velocity (ball self)) <? 0)
    then set_ball (Ball.bounce_horizontal (ball self)) self
    else self in
  let self :=
    if (Point.y (Ball.center (ball self)) <? BALL_RADIUS)
       && (Velocity.dy (Ball.velocity (ball self)) <? 0)
    then set_ball (Ball.bounce_vertical (ball self)) self
    else self in
  if (SCREEN_HEIGHT - BALL_RADIUS <? Point.y (Ball.center (ball self)))
     && (0 <? Velocity.dy (Ball.velocity (ball self)))
  then set_ball (Ball.bounce_vertical (ball self)) self
  else self.

Definition check_keys (self : t) : t :=
  let self :=
    if holding_left self
    then set_paddle (Paddle.move_down (paddle self)) self
    else self in
  if holding_right self
  then set_paddle (Paddle.move_up (paddle self)) self
  else self.

(** [update(delta_time)]: the elapsed time is a parameter of the method
    and is not read by its body. *)
Definition update (delta_time : Q) (self : t) : Rand t :=
  let self := set_ball (Ball.advance (ball self)) self in
  let self := check_keys self in
  self <- check_miss self ;;
  let self := check_hit self in
  let self := check_bounce self in
  ret self.

End Pong.

(** ** Reading the state *)

Definition ball_x (g : Pong.t) : Z := Point.x (Ball.center (Pong.ball g)).
Definition ball_y (g : Pong.t) : Z := Point.y (Ball.center (Pong.ball g)).
Definition ball_dx (g : Pong.t) : Z := Velocity.dx (Ball.velocity (Pong.ball g)).
Definition ball_dy (g : Pong.t) : Z := Velocity.dy (Ball.velocity (Pong.ball g)).
Definition paddle_x (g : Pong.t) : Z := Point.x (Paddle.center (Pong.paddle g)).
Definition paddle_y (g : Pong.t) : Z := Point.y (Paddle.center (Pong.paddle g)).

(** The overlap half of the hit test: the ball's centre is within the
    paddle's half extent plus the ball's radius, on each axis. *)
Definition overlaps (g : Pong.t) : Prop :=
  Z.abs (ball_x g - paddle_x g) < PADDLE_WIDTH / 2 + BALL_RADIUS
  /\ Z.abs (ball_y g - paddle_y g) < PADDLE_HEIGHT / 2 + BALL_RADIUS.

(** The three values a restart or a construction rolls, read off the
    generator: height, horizontal speed, vertical speed. *)
Definition rolled_y (r : RandomSource) : Z :=
  BALL_RADIUS + draws r (cursor r) mod (SCREEN_HEIGHT - BALL_RADIUS - BALL_RADIUS + 1).
Definition rolled_dx (r : RandomSource) : Z :=
  MOVE_AMOUNT + draws r (S (cursor r)) mod (2 * MOVE_AMOUNT - MOVE_AMOUNT + 1).
Definition rolled_dy (r : RandomSource) : Z :=
  MOVE_AMOUNT - 2 + draws r (S (S (cursor r))) mod (MOVE_AMOUNT - 1 - (MOVE_AMOUNT - 2) + 1).

(** A generator whose every raw draw is [n]. *)
Definition constant_source (n : Z) : RandomSource := mkRandom (fun _ => n) 0.

(** ** The frame procedure as the design document words it

    The five numbered steps of the per-frame procedure, each written out
    on the fields it names.  [holding_left] is the decrease-y flag and
    [holding_right] the increase-y flag. *)

Module FrameSpec.

Definition arena_width : Z := SCREEN_WIDTH.
Definition arena_height : Z := SCREEN_HEIGHT.
Definition radius : Z := BALL_RADIUS.
Definition paddle_width : Z := PADDLE_WIDTH.
Definition paddle_height : Z := PADDLE_HEIGHT.
Definition move_unit : Z := MOVE_AMOUNT.
Definition hit_reward : Z := SCORE_HIT.
Definition miss_penalty : Z := SCORE_MISS.

(** The state of one frame, field by field. *)
Definition state (bx by_ vx vy px py sc : Z) (down up : bool) : Pong.t :=
  Pong.mk (Ball.mk (Point.mk bx by_) (Velocity.mk vx vy))
          (Paddle.mk (Point.mk px py)) sc down up.

(** Step 1: [center.x += velocity.dx; center.y += velocity.dy]. *)
Definition step_advance (g : Pong.t) : Pong.t :=
  state (ball_x g + ball_dx g) (ball_y g + ball_dy g) (ball_dx g) (ball_dy g)
        (paddle_x g) (paddle_y g) (Pong.score g)
        (Pong.holding_left g) (Pong.holding_right g).

(** Step 2: the handler of the decrease-y flag, then that of the
    increase-y flag, each with its own clamp. *)
Definition clamp_down (py : Z) : Z :=
  if paddle_height / 2 <? py then py - move_unit else py.

Definition clamp_up (py : Z) : Z :=
  if py <? arena_height - paddle_height / 2 then py + move_unit else py.

Definition step_input (g : Pong.t) : Pong.t :=
  let py := paddle_y g in
  let py := if Pong.holding_left g then clamp_down py else py in
  let py := if Pong.holding_right g then clamp_up py else py in
  state (ball_x g) (ball_y g) (ball_dx g) (ball_dy g)
        (paddle_x g) py (Pong.score g)
        (Pong.holding_left g) (Pong.holding_right g).

(** Step 3: past the right edge the score drops by the penalty and the
    ball restarts at [x = 0] with height and velocity rolled anew. *)
Definition step_miss (g : Pong.t) : Rand Pong.t :=
  if arena_width <? ball_x g then
    cy <- randint radius (arena_height - radius) ;;
    vx <- randint move_unit (2 * move_unit) ;;
    vy <- randint (move_unit - 2) (move_unit - 1) ;;
    ret (state 0 cy vx vy (paddle_x g) (paddle_y g)
               (Pong.score g - miss_penalty)
               (Pong.holding_left g) (Pong.holding_right g))
  else ret g.

(** Step 4: overlap on both axes while moving right reverses the
    horizontal velocity and adds the reward. *)
Definition step_hit (g : Pong.t) : Pong.t :=
  if (Z.abs (ball_x g - paddle_x g) <? paddle_width / 2 + radius)
     && (Z.abs (ball_y g - paddle_y g) <? paddle_height / 2 + radius)
     && (0 <? ball_dx g)
  then state (ball_x g) (ball_y g) (- ball_dx g) (ball_dy g)
             (paddle_x g) (paddle_y g) (Pong.score g + hit_reward)
             (Pong.holding_left g) (Pong.holding_right g)
  else g.

(** Step 5: three independent guards, each asking for motion toward its
    wall; the later guards read the velocity the earlier ones left. *)
Definition step_bounce (g : Pong.t) : Pong.t :=
  let vx := if (ball_x g <? radius) && (ball_dx g <? 0)
            then - ball_dx g else ball_dx g in
  let vy := if (ball_y g <? radius) && (ball_dy g <? 0)
            then - ball_dy g else ball_dy g in
  let vy := if (arena_height - radius <? ball_y g) && (0 <? vy)
            then - vy else vy in
  state (ball_x g) (ball_y g) vx vy (paddle_x g) (paddle_y g) (Pong.score g)
        (Pong.holding_left g) (Pong.holding_right g).

Definition update_frame (g : Pong.t) : Rand Pong.t :=
  g <- step_miss (step_input (step_advance g)) ;;
  ret (step_bounce (step_hit g)).

End FrameSpec.

(** ** Sequences of paddle moves *)

Inductive move : Type := Up | Down.

Definition apply_move (m : move) (p : Paddle.t) : Paddle.t :=
  match m with
  | Up => Paddle.move_up p
  | Down => Paddle.move_down p
  end.

(** The calls of [ms] made one after the other, leftmost first. *)
Definition run_moves (ms : list move) (p : Paddle.t) : Paddle.t :=
  fold_left (fun q m => apply_move m q) ms p.

(** [n] calls of [move_up] in a row. *)
Fixpoint move_up_n (n : nat) (p : Paddle.t) : Paddle.t :=
  match n with
  | O => p
  | S k => move_up_n k (Paddle.move_up p)
  end.

(** A paddle whose centre is at height [py], on the paddle's column. *)
Definition paddle_at (py : Z) : Paddle.t :=
  Paddle.mk (Point.mk (SCREEN_WIDTH - PADDLE_WIDTH) py).

(** Where the centre comes to rest under repeated [move_up]: the first
    of [py], [py + 4], [py + 8], ... that is not below the clamp line. *)
Definition rest_height (py : Z) : Z :=
  if py <? SCREEN_HEIGHT - PADDLE_HEIGHT / 2
  then py + MOVE_AMOUNT * ((SCREEN_HEIGHT - PADDLE_HEIGHT / 2 - py + MOVE_AMOUNT - 1) / MOVE_AMOUNT)
  else py.

(** The number of [move_up] calls that change the centre from [py]. *)
Definition steps_to_rest (py : Z) : nat :=
  Z.to_nat ((SCREEN_HEIGHT - PADDLE_HEIGHT / 2 - py + MOVE_AMOUNT - 1) / MOVE_AMOUNT).

(** The state a restart leaves behind a miss: the ball at [x = 0] with the
    three rolled values, the penalty taken off the score. *)
Definition after_miss (g : Pong.t) (r : RandomSource) : Pong.t :=
  FrameSpec.state 0 (rolled_y r) (rolled_dx r) (rolled_dy r)
                  (paddle_x g) (paddle_y g) (Pong.score g - SCORE_MISS)
                  (Pong.holding_left g) (Pong.holding_right g).

(** The state the miss check receives: advanced ball, moved paddle. *)
Definition before_checks (g : Pong.t) : Pong.t :=
  Pong.check_keys (Pong.set_ball (Ball.advance (Pong.ball g)) g).

(** ** Sample states *)

(** The ball at (380, 150) moving right at speed 5, the paddle at its
    initial place, score 0, no key held. *)
Definition sample_hit : Pong.t :=
  FrameSpec.state 380 150 5 0 390 150 0 false false.

(** The same overlap with the ball moving left. *)
Definition sample_leaving : Pong.t :=
  FrameSpec.state 380 150 (-5) 0 390 150 0 false false.

(** A ball one unit past the right edge, drifting right at speed 4. *)
Definition sample_past_edge : Pong.t :=
  FrameSpec.state 401 150 4 2 390 150 0 false false.

(** The same position with the ball moving left at speed 5. *)
Definition sample_past_edge_leaving : Pong.t :=
  FrameSpec.state 401 150 (-5) 2 390 150 0 false false.

(** A ball past the right edge in a state whose paddle is off its column,
    at the place where a restarted ball appears. *)
Definition sample_displaced_paddle : Pong.t :=
  FrameSpec.state 401 150 4 2 0 10 0 false false.

(** A window library that accepts every size, and one that refuses every
    size below 100 by 100 with an exception of its own. *)
Definition lenient_window : WindowInit := fun _ _ => Ok tt.

Definition strict_window : WindowInit :=
  fun width height =>
    if (width <? 100) || (height <? 100) then Raise (External 1) else Ok tt.

(** ** The paddle's height and its clamp lines *)

Definition paddle_height_of (p : Paddle.t) : Z := Point.y (Paddle.center p).

(** The clamp lines of the two moves, as the source computes them. *)
Definition upper_line : Z := SCREEN_HEIGHT - PADDLE_HEIGHT / 2.
Definition lower_line : Z := PADDLE_HEIGHT / 2.

(** The heights the paddle can take in play: within one step of the two
    clamp lines, on the grid of the initial height. *)
Definition on_grid (p : Paddle.t) : Prop :=
  lower_line - MOVE_AMOUNT < paddle_height_of p < upper_line + MOVE_AMOUNT
  /\ paddle_height_of p mod MOVE_AMOUNT = 2.

(** ** Key handling

    [on_key_press] and [on_key_release] compare the key they receive
    with four constants of [arcade.key].  The values of these constants
    belong to the windowing library; the handlers take them as a
    parameter. *)

Record KeyCodes : Type := mkKeys { LEFT : Z; RIGHT : Z; UP : Z; DOWN : Z }.

(** Four distinct codes, for running the handlers on examples. *)
Definition sample_keys : KeyCodes := mkKeys 65361 65363 65362 65364.

Definition set_holding_left (v : bool) (self : Pong.t) : Pong.t :=
  Pong.mk (Pong.ball self) (Pong.paddle self) (Pong.score self)
          v (Pong.holding_right self).

Definition set_holding_right (v : bool) (self : Pong.t) : Pong.t :=
  Pong.mk (Pong.ball self) (Pong.paddle self) (Pong.score self)
          (Pong.holding_left self) v.

(** [Pong.on_key_press(key, key_modifiers)]. *)
Definition on_key_press (K : KeyCodes) (key key_modifiers : Z) (self : Pong.t)
  : Pong.t :=
  let self :=
    if (key =? LEFT K) || (key =? DOWN K)
    then set_holding_left true self
    else self in
  if (key =? RIGHT K) || (key =? UP K)
  then set_holding_right true self
  else self.

(** [Pong.on_key_release(key, key_modifiers)]. *)
Definition on_key_release (K : KeyCodes) (key key_modifiers : Z) (self : Pong.t)
  : Pong.t :=
  let self :=
    if (key =? LEFT K) || (key =? DOWN K)
    then set_holding_left false self
    else self in
  if (key =? RIGHT K) || (key =? UP K)
  then set_holding_right false self
  else self.

(** ** The callbacks in sequence

    The window calls [update], [on_key_press] and [on_key_release] one at
    a time, in an order the program does not choose.  [play] runs a given
    order of calls; [game] is the program's last two lines once the
    window library has accepted the program's own size: the rest of the
    construction followed by such a run. *)

Inductive event : Type :=
| Update (delta_time : Q)
| KeyPress (key key_modifiers : Z)
| KeyRelease (key key_modifiers : Z).

Definition dispatch (K : KeyCodes) (e : event) (g : Pong.t) : Rand Pong.t :=
  match e with
  | Update delta_time => Pong.update delta_time g
  | KeyPress key key_modifiers => ret (on_key_press K key key_modifiers g)
  | KeyRelease key key_modifiers => ret (on_key_release K key key_modifiers g)
  end.

Fixpoint play (K : KeyCodes) (evs : list event) (g : Pong.t) : Rand Pong.t :=
  match evs with
  | [] => ret g
  | e :: rest => g' <- dispatch K e g ;; play K rest g'
  end.

Definition game (K : KeyCodes) (evs : list event) : Rand Pong.t :=
  g <- Pong.init_body ;; play K evs g.

(** The number of [update] calls in a run. *)
Fixpoint frames (evs : list event) : Z :=
  match evs with
  | [] => 0
  | Update _ :: rest => 1 + frames rest
  | _ :: rest => frames rest
  end.

(** ** Repeated calls *)

(** [n] calls of [Ball.advance] in a row. *)
Fixpoint advance_n (n : nat) (b : Ball.t) : Ball.t :=
  match n with
  | O => b
  | S k => advance_n k (Ball.advance b)
  end.

(** [n] calls of [Paddle.move_down] in a row. *)
Fixpoint move_down_n (n : nat) (p : Paddle.t) : Paddle.t :=
  match n with
  | O => p
  | S k => move_down_n k (Paddle.move_down p)
  end.

(** Where the centre comes to rest under repeated [move_down]: the first
    of [py], [py - 4], [py - 8], ... that is not above the lower line. *)
Definition rest_depth (py : Z) : Z :=
  if PADDLE_HEIGHT / 2 <? py
  then py - MOVE_AMOUNT * ((py - PADDLE_HEIGHT / 2 + MOVE_AMOUNT - 1) / MOVE_AMOUNT)
  else py.

(** The number of [move_down] calls that change the centre from [py]. *)
Definition steps_to_depth (py : Z) : nat :=
  Z.to_nat ((py - PADDLE_HEIGHT / 2 + MOVE_AMOUNT - 1) / MOVE_AMOUNT).

(** ** The states of a game in play

    The ball is inside the arena horizontally and within one vertical
    step of the band the walls keep it in; where it overlaps a wall it
    moves away from it; its speeds are in the ranges a roll gives them,
    up to sign.  The paddle is on its column and on its grid. *)

Definition ball_in_play (g : Pong.t) : Prop :=
  0 <= ball_x g <= SCREEN_WIDTH
  /\ (ball_x g < BALL_RADIUS -> 0 < ball_dx g)
  /\ MOVE_AMOUNT <= Z.abs (ball_dx g) <= 2 * MOVE_AMOUNT
  /\ BALL_RADIUS - (MOVE_AMOUNT - 1) <= ball_y g
     <= SCREEN_HEIGHT - BALL_RADIUS + (MOVE_AMOUNT - 1)
  /\ (ball_y g < BALL_RADIUS -> 0 < ball_dy g)
  /\ (SCREEN_HEIGHT - BALL_RADIUS < ball_y g -> ball_dy g < 0)
  /\ MOVE_AMOUNT - 2 <= Z.abs (ball_dy g) <= MOVE_AMOUNT - 1.

Definition in_play (g : Pong.t) : Prop :=
  ball_in_play g
  /\ paddle_x g = SCREEN_WIDTH - PADDLE_WIDTH
  /\ on_grid (Pong.paddle g).

(** The ranges alone, as they hold between the advance and the boundary
    check of a frame, before the ball has been turned away from a wall. *)
Definition ball_bounded (g : Pong.t) : Prop :=
  0 <= ball_x g <= SCREEN_WIDTH
  /\ MOVE_AMOUNT <= Z.abs (ball_dx g) <= 2 * MOVE_AMOUNT
  /\ BALL_RADIUS - (MOVE_AMOUNT - 1) <= ball_y g
     <= SCREEN_HEIGHT - BALL_RADIUS + (MOVE_AMOUNT - 1)
  /\ MOVE_AMOUNT - 2 <= Z.abs (ball_dy g) <= MOVE_AMOUNT - 1.

(** A state in play: the ball 40 to the right of the left wall, climbing. *)
Definition sample_in_play : Pong.t :=
  FrameSpec.state 50 100 6 3 390 150 0 false false.

(** ** Proof tools *)

(** Case analysis on every integer comparison the goal still tests. *)
Ltac split_tests :=
  repeat match goal with
         | |- context [?a <? ?b] => destruct (Z.ltb_spec a b)
         end.

(** Unfolds the readers of the state down to the fields. *)
Ltac to_fields :=
  unfold ball_x, ball_y, ball_dx, ball_dy, paddle_x, paddle_y,
    Point.set_x, Point.set_y, Velocity.set_dx, Velocity.set_dy in *;
  cbn [Pong.ball Pong.paddle Pong.score Pong.holding_left Pong.holding_right
       Ball.center Ball.velocity Paddle.center Point.x Point.y
       Velocity.dx Velocity.dy] in *.

(** [v *= -1] is a negation. *)
Ltac negations :=
  repeat match goal with
         | |- context [?v * -1] => replace (v * -1) with (- v) by lia
         end.

(** Linear arithmetic with division and remainder by constants. *)
Ltac euclid := Z.to_euclidean_division_equations; lia.

(** A paddle as its two coordinates, its height read off. *)
Ltac open_paddle p :=
  destruct p as [[?px ?py]];
  unfold paddle_height_of in *; cbn [Paddle.center Point.x Point.y] in *.

(** A ball as its four numbers. *)
Ltac open_ball b := destruct b as [[?bx ?by_] [?vx ?vy]].

Ltac open_pong g :=
  destruct g as [[[?bx ?by_] [?vx ?vy]] [[?px ?py]] ?sc ?hl ?hr].

(** The literal values of the module constants. *)
Ltac constants :=
  change SCREEN_WIDTH with 400 in *; change SCREEN_HEIGHT with 300 in *;
  change BALL_RADIUS with 10 in *; change PADDLE_WIDTH with 10 in *;
  change PADDLE_HEIGHT with 50 in *; change MOVE_AMOUNT with 4 in *;
  change SCORE_HIT with 1 in *; change SCORE_MISS with 5 in *.

(** ** Basic facts *)

Lemma halves_are_exact :
  2 * (PADDLE_WIDTH / 2) = PADDLE_WIDTH
  /\ 2 * (PADDLE_HEIGHT / 2) = PADDLE_HEIGHT
  /\ 2 * (SCREEN_HEIGHT / 2) = SCREEN_HEIGHT.
Proof. repeat split; reflexivity. Qed.

Lemma randint_in_range (a b : Z) (r : RandomSource) :
  a <= b ->
  exists n, randint a b r = Ok (n, next r) /\ a <= n <= b.
Proof.
  intros Hab. unfold randint.
  destruct (Z.ltb_spec b a) as [Hlt | _]; [lia |].
  eexists; split; [reflexivity |].
  pose proof (Z.mod_pos_bound (draws r (cursor r)) (b - a + 1)); lia.
Qed.

Lemma randint_reaches (a n b : Z) :
  a <= n <= b ->
  randint a b (constant_source (n - a)) = Ok (n, next (constant_source (n - a))).
Proof.
  intros H. unfold randint.
  destruct (Z.ltb_spec b a) as [Hlt | _]; [lia |].
  cbn [draws cursor constant_source].
  rewrite Z.mod_small by lia. do 2 f_equal. lia.
Qed.

Lemma rolled_bounds (r : RandomSource) :
  BALL_RADIUS <= rolled_y r <= SCREEN_HEIGHT - BALL_RADIUS
  /\ MOVE_AMOUNT <= rolled_dx r <= 2 * MOVE_AMOUNT
  /\ MOVE_AMOUNT - 2 <= rolled_dy r <= MOVE_AMOUNT - 1.
Proof.
  unfold rolled_y, rolled_dx, rolled_dy.
  pose proof (Z.mod_pos_bound (draws r (cursor r)) 281 eq_refl).
  pose proof (Z.mod_pos_bound (draws r (S (cursor r))) 5 eq_refl).
  pose proof (Z.mod_pos_bound (draws r (S (S (cursor r)))) 2 eq_refl).
  change (SCREEN_HEIGHT - BALL_RADIUS - BALL_RADIUS + 1) with 281.
  change (2 * MOVE_AMOUNT - MOVE_AMOUNT + 1) with 5.
  change (MOVE_AMOUNT - 1 - (MOVE_AMOUNT - 2) + 1) with 2.
  change BALL_RADIUS with 10. change SCREEN_HEIGHT with 300.
  change MOVE_AMOUNT with 4. lia.
Qed.

Lemma Ball_init_eq (r : RandomSource) :
  Ball.init r
  = Ok (Ball.mk (Point.mk BALL_RADIUS (rolled_y r))
                (Velocity.mk (rolled_dx r) (rolled_dy r)),
        next (next (next r))).
Proof. reflexivity. Qed.

Lemma Ball_restart_eq (b : Ball.t) (r : RandomSource) :
  Ball.restart b r
  = Ok (Ball.mk (Point.mk 0 (rolled_y r))
                (Velocity.mk (rolled_dx r) (rolled_dy r)),
        next (next (next r))).
Proof. reflexivity. Qed.

(** ** The methods of [Pong] on the fields *)

Lemma advance_is_step (g : Pong.t) :
  Pong.set_ball (Ball.advance (Pong.ball g)) g = FrameSpec.step_advance g.
Proof. open_pong g. reflexivity. Qed.

Lemma check_keys_is_step (g : Pong.t) :
  Pong.check_keys g = FrameSpec.step_input g.
Proof.
  open_pong g.
  unfold Pong.check_keys, FrameSpec.step_input, FrameSpec.clamp_down,
    FrameSpec.clamp_up, Paddle.move_down, Paddle.move_up, Pong.set_paddle,
    FrameSpec.paddle_height, FrameSpec.arena_height, FrameSpec.move_unit.
  to_fields.
  destruct hl, hr; to_fields.
  - destruct (Z.ltb_spec (PADDLE_HEIGHT / 2) py); to_fields;
      split_tests; try reflexivity; lia.
  - destruct (Z.ltb_spec (PADDLE_HEIGHT / 2) py); reflexivity.
  - destruct (Z.ltb_spec py (SCREEN_HEIGHT - PADDLE_HEIGHT / 2)); reflexivity.
  - reflexivity.
Qed.

Lemma check_miss_is_step (g : Pong.t) (r : RandomSource) :
  Pong.check_miss g r = FrameSpec.step_miss g r.
Proof.
  open_pong g. unfold Pong.check_miss, FrameSpec.step_miss.
  to_fields. unfold FrameSpec.arena_width.
  destruct (Z.ltb_spec SCREEN_WIDTH bx); reflexivity.
Qed.

Lemma check_hit_is_step (g : Pong.t) :
  Pong.check_hit g = FrameSpec.step_hit g.
Proof.
  open_pong g. unfold Pong.check_hit, FrameSpec.step_hit.
  to_fields.
  unfold FrameSpec.paddle_width, FrameSpec.paddle_height, FrameSpec.radius.
  destruct (_ && _ && _); [| reflexivity].
  unfold FrameSpec.state, FrameSpec.hit_reward, Pong.set_score, Pong.set_ball,
    Ball.bounce_horizontal, Velocity.set_dx.
  to_fields.
  do 3 f_equal. lia.
Qed.

Lemma check_bounce_is_step (g : Pong.t) :
  Pong.check_bounce g = FrameSpec.step_bounce g.
Proof.
  open_pong g.
  unfold Pong.check_bounce, FrameSpec.step_bounce, FrameSpec.state,
    Pong.set_ball, Ball.bounce_horizontal, Ball.bounce_vertical,
    FrameSpec.radius, FrameSpec.arena_height.
  to_fields.
  destruct ((bx <? BALL_RADIUS) && (vx <? 0)); to_fields; negations;
    destruct ((by_ <? BALL_RADIUS) && (vy <? 0)); to_fields; negations;
    match goal with
    | |- context [?a && ?b] => destruct (a && b)
    end;
    to_fields; negations; reflexivity.
Qed.

(** What one pass of the boundary guards does to a horizontal and to a
    vertical velocity. *)
Lemma step_bounce_fields (g : Pong.t) :
  FrameSpec.step_bounce g
  = FrameSpec.state (ball_x g) (ball_y g)
      (if (ball_x g <? BALL_RADIUS) && (ball_dx g <? 0)
       then - ball_dx g else ball_dx g)
      (if (ball_y g <? BALL_RADIUS) && (ball_dy g <? 0)
       then - ball_dy g
       else if (SCREEN_HEIGHT - BALL_RADIUS <? ball_y g) && (0 <? ball_dy g)
            then - ball_dy g else ball_dy g)
      (paddle_x g) (paddle_y g) (Pong.score g)
      (Pong.holding_left g) (Pong.holding_right g).
Proof.
  unfold FrameSpec.step_bounce, FrameSpec.radius, FrameSpec.arena_height.
  f_equal.
  destruct (Z.ltb_spec (ball_y g) BALL_RADIUS);
    destruct (Z.ltb_spec (ball_dy g) 0); cbn [andb]; try reflexivity.
  destruct (Z.ltb_spec (SCREEN_HEIGHT - BALL_RADIUS) (ball_y g));
    cbn [andb]; [| reflexivity].
  destruct (Z.ltb_spec 0 (- ball_dy g)); [| reflexivity].
  constants. lia.
Qed.

Lemma step_bounce_idempotent (g : Pong.t) :
  FrameSpec.step_bounce (FrameSpec.step_bounce g) = FrameSpec.step_bounce g.
Proof.
  rewrite (step_bounce_fields g).
  set (vx' := if (ball_x g <? BALL_RADIUS) && (ball_dx g <? 0)
              then - ball_dx g else ball_dx g).
  set (vy' := if (ball_y g <? BALL_RADIUS) && (ball_dy g <? 0)
              then - ball_dy g
              else if (SCREEN_HEIGHT - BALL_RADIUS <? ball_y g) && (0 <? ball_dy g)
                   then - ball_dy g else ball_dy g).
  rewrite step_bounce_fields.
  unfold FrameSpec.state. to_fields.
  assert (Hx : (if (Point.x (Ball.center (Pong.ball g)) <? BALL_RADIUS) && (vx' <? 0)
                then - vx' else vx') = vx').
  { subst vx'. constants.
    destruct (Z.ltb_spec (Point.x (Ball.center (Pong.ball g))) 10);
      destruct (Z.ltb_spec (Velocity.dx (Ball.velocity (Pong.ball g))) 0);
      cbn [andb]; split_tests; reflexivity || lia. }
  assert (Hy : (if (Point.y (Ball.center (Pong.ball g)) <? BALL_RADIUS) && (vy' <? 0)
                then - vy'
                else if (SCREEN_HEIGHT - BALL_RADIUS <? Point.y (Ball.center (Pong.ball g)))
                        && (0 <? vy')
                     then - vy' else vy') = vy').
  { subst vy'. constants.
    destruct (Z.ltb_spec (Point.y (Ball.center (Pong.ball g))) 10);
      destruct (Z.ltb_spec (Velocity.dy (Ball.velocity (Pong.ball g))) 0);
      destruct (Z.ltb_spec (300 - 10) (Point.y (Ball.center (Pong.ball g))));
      destruct (Z.ltb_spec 0 (Velocity.dy (Ball.velocity (Pong.ball g))));
      cbn [andb]; split_tests; cbn [andb]; reflexivity || lia. }
  rewrite Hx, Hy. reflexivity.
Qed.

(** ** The hit check *)

Lemma check_hit_fires (g : Pong.t) :
  overlaps g -> 0 < ball_dx g ->
  Pong.check_hit g
  = Pong.mk (Ball.mk (Ball.center (Pong.ball g))
                     (Velocity.mk (- ball_dx g) (ball_dy g)))
            (Pong.paddle g) (Pong.score g + SCORE_HIT)
            (Pong.holding_left g) (Pong.holding_right g).
Proof.
  intros [Hx Hy] Hdx. unfold Pong.check_hit.
  fold (ball_x g) (ball_y g) (ball_dx g) (paddle_x g) (paddle_y g).
  destruct (Z.ltb_spec (Z.abs (ball_x g - paddle_x g)) (PADDLE_WIDTH / 2 + BALL_RADIUS));
    [| lia].
  destruct (Z.ltb_spec (Z.abs (ball_y g - paddle_y g)) (PADDLE_HEIGHT / 2 + BALL_RADIUS));
    [| lia].
  destruct (Z.ltb_spec 0 (ball_dx g)); [| lia].
  cbn [andb]. unfold Pong.set_score, Pong.set_ball, Ball.bounce_horizontal,
    Velocity.set_dx, ball_dx, ball_dy.
  cbn [Pong.ball Pong.paddle Pong.score Pong.holding_left Pong.holding_right
       Ball.center Ball.velocity].
  do 3 f_equal. lia.
Qed.

Lemma check_hit_idle (g : Pong.t) :
  ~ (overlaps g /\ 0 < ball_dx g) -> Pong.check_hit g = g.
Proof.
  intros Hno. unfold Pong.check_hit.
  fold (ball_x g) (ball_y g) (ball_dx g) (paddle_x g) (paddle_y g).
  destruct (Z.ltb_spec (Z.abs (ball_x g - paddle_x g)) (PADDLE_WIDTH / 2 + BALL_RADIUS));
    [| reflexivity].
  destruct (Z.ltb_spec (Z.abs (ball_y g - paddle_y g)) (PADDLE_HEIGHT / 2 + BALL_RADIUS));
    [| reflexivity].
  destruct (Z.ltb_spec 0 (ball_dx g)); [| reflexivity].
  exfalso. apply Hno. unfold overlaps. auto.
Qed.

(** C1. The hit check is decided by the overlap-and-direction test.  When
    the ball's centre is within [PADDLE_WIDTH/2 + BALL_RADIUS] of the
    paddle's in x and within [PADDLE_HEIGHT/2 + BALL_RADIUS] in y and
    [dx > 0], the check negates [dx], adds [SCORE_HIT] to the score and
    leaves everything else as it was; when the test fails it changes
    nothing; in particular with [dx <= 0] neither the score nor the
    velocity changes, overlap or not. *)
Theorem check_hit_exactly_when_overlapping_and_approaching (g : Pong.t) :
  (overlaps g /\ 0 < ball_dx g ->
     ball_dx (Pong.check_hit g) = - ball_dx g
     /\ Pong.score (Pong.check_hit g) = Pong.score g + SCORE_HIT
     /\ ball_dy (Pong.check_hit g) = ball_dy g
     /\ Ball.center (Pong.ball (Pong.check_hit g)) = Ball.center (Pong.ball g)
     /\ Pong.paddle (Pong.check_hit g) = Pong.paddle g)
  /\ (~ (overlaps g /\ 0 < ball_dx g) -> Pong.check_hit g = g)
  /\ (ball_dx g <= 0 ->
        Pong.score (Pong.check_hit g) = Pong.score g
        /\ Ball.velocity (Pong.ball (Pong.check_hit g))
           = Ball.velocity (Pong.ball g)).
Proof.
  split; [| split].
  - intros [Hov Hdx]. rewrite (check_hit_fires g Hov Hdx).
    unfold ball_dx, ball_dy. cbn. repeat split.
  - apply check_hit_idle.
  - intros Hdx. rewrite check_hit_idle; [split; reflexivity |].
    intros [_ Hpos]. lia.
Qed.

Lemma check_hit_exactly_when_overlapping_and_approaching_witness :
  (overlaps sample_hit /\ 0 < ball_dx sample_hit)
  /\ ball_dx (Pong.check_hit sample_hit) = -5
  /\ Pong.score (Pong.check_hit sample_hit) = 1
  /\ ball_dx sample_leaving <= 0
  /\ Pong.score (Pong.check_hit sample_leaving) = 0
  /\ ball_dx (Pong.check_hit sample_leaving) = -5.
Proof.
  assert (Hs : overlaps sample_hit /\ 0 < ball_dx sample_hit)
    by (unfold overlaps; vm_compute; intuition congruence).
  assert (Hl : ball_dx sample_leaving <= 0) by (vm_compute; congruence).
  destruct (check_hit_exactly_when_overlapping_and_approaching sample_hit)
    as [Hfire _].
  destruct (check_hit_exactly_when_overlapping_and_approaching sample_leaving)
    as [_ [_ Hgate]].
  destruct (Hfire Hs) as [Hdx [Hsc _]].
  destruct (Hgate Hl) as [Hsc' Hv'].
  split; [exact Hs |].
  split; [rewrite Hdx; reflexivity |].
  split; [rewrite Hsc; reflexivity |].
  split; [exact Hl |].
  split; [rewrite Hsc'; reflexivity |].
  unfold ball_dx. rewrite Hv'. reflexivity.
Defined.

(** ** The boundary-bounce check *)

(** C6. The boundary-bounce check is idempotent: run twice in a row, with
    no advance in between, it leaves the state it left the first time.
    Each guard asks for motion toward its wall, so a component it has
    just flipped no longer passes it. *)
Theorem check_bounce_idempotent (g : Pong.t) :
  Pong.check_bounce (Pong.check_bounce g) = Pong.check_bounce g.
Proof.
  rewrite (check_bounce_is_step g), check_bounce_is_step.
  apply step_bounce_idempotent.
Qed.

(** ** The elapsed time *)

(** C8. The frame update does not depend on the elapsed time: from one
    state and one generator, any two values of [delta_time] give the same
    ball, paddle, score and generator. *)
Theorem update_ignores_delta_time (t1 t2 : Q) (g : Pong.t) (r : RandomSource) :
  Pong.update t1 g r = Pong.update t2 g r.
Proof. reflexivity. Qed.

(** ** Construction of the ball *)

(** C7. Whatever the generator holds, constructing a ball succeeds and
    gives [center.x = BALL_RADIUS], [center.y] in
    [[BALL_RADIUS, SCREEN_HEIGHT - BALL_RADIUS]], [dx] in
    [[MOVE_AMOUNT, 2 * MOVE_AMOUNT]], hence positive, and [dy] in
    [[MOVE_AMOUNT - 2, MOVE_AMOUNT - 1]]. *)
Theorem Ball_init_ranges (r : RandomSource) :
  exists b r',
    Ball.init r = Ok (b, r')
    /\ Point.x (Ball.center b) = BALL_RADIUS
    /\ BALL_RADIUS <= Point.y (Ball.center b) <= SCREEN_HEIGHT - BALL_RADIUS
    /\ MOVE_AMOUNT <= Velocity.dx (Ball.velocity b) <= 2 * MOVE_AMOUNT
    /\ 0 < Velocity.dx (Ball.velocity b)
    /\ MOVE_AMOUNT - 2 <= Velocity.dy (Ball.velocity b) <= MOVE_AMOUNT - 1.
Proof.
  do 2 eexists. split; [apply Ball_init_eq |].
  cbn [Ball.center Ball.velocity Point.x Point.y Velocity.dx Velocity.dy].
  destruct (rolled_bounds r) as [Hy [Hdx Hdy]].
  repeat split; try tauto.
  change MOVE_AMOUNT with 4 in Hdx. lia.
Qed.

(** ** The frame update *)

Lemma before_checks_fields (g : Pong.t) :
  ball_x (before_checks g) = ball_x g + ball_dx g
  /\ paddle_x (before_checks g) = paddle_x g
  /\ Pong.score (before_checks g) = Pong.score g.
Proof.
  unfold before_checks. rewrite advance_is_step, check_keys_is_step.
  open_pong g. repeat split.
Qed.

Lemma check_miss_fires (g : Pong.t) (r : RandomSource) :
  SCREEN_WIDTH < ball_x g ->
  Pong.check_miss g r = Ok (after_miss g r, next (next (next r))).
Proof.
  intros H. open_pong g. unfold Pong.check_miss. to_fields.
  destruct (Z.ltb_spec SCREEN_WIDTH bx); [reflexivity | lia].
Qed.

Lemma check_miss_idle (g : Pong.t) (r : RandomSource) :
  ball_x g <= SCREEN_WIDTH -> Pong.check_miss g r = Ok (g, r).
Proof.
  intros H. unfold Pong.check_miss. fold (ball_x g).
  destruct (Z.ltb_spec SCREEN_WIDTH (ball_x g)); [lia | reflexivity].
Qed.

Lemma update_on_miss (delta_time : Q) (g : Pong.t) (r : RandomSource) :
  SCREEN_WIDTH < ball_x g + ball_dx g ->
  Pong.update delta_time g r
  = Ok (Pong.check_bounce (Pong.check_hit (after_miss (before_checks g) r)),
        next (next (next r))).
Proof.
  intros H. unfold Pong.update, bind. fold (before_checks g).
  rewrite check_miss_fires; [reflexivity |].
  destruct (before_checks_fields g) as [Hx _]. lia.
Qed.

Lemma update_on_no_miss (delta_time : Q) (g : Pong.t) (r : RandomSource) :
  ball_x g + ball_dx g <= SCREEN_WIDTH ->
  Pong.update delta_time g r
  = Ok (Pong.check_bounce (Pong.check_hit (before_checks g)), r).
Proof.
  intros H. unfold Pong.update, bind. fold (before_checks g).
  rewrite check_miss_idle; [reflexivity |].
  destruct (before_checks_fields g) as [Hx _]. lia.
Qed.

Lemma check_bounce_keeps (g : Pong.t) :
  ball_x (Pong.check_bounce g) = ball_x g
  /\ Pong.score (Pong.check_bounce g) = Pong.score g.
Proof. rewrite check_bounce_is_step. split; reflexivity. Qed.

(** With the paddle on its column, a ball that has just restarted at
    [x = 0] is out of the paddle's reach: the hit check does nothing. *)
Lemma no_hit_after_miss (g : Pong.t) (r : RandomSource) :
  paddle_x g = SCREEN_WIDTH - PADDLE_WIDTH ->
  Pong.check_hit (after_miss g r) = after_miss g r.
Proof.
  intros Hp. apply check_hit_idle. intros [[Hx _] _].
  unfold after_miss in Hx. unfold ball_x, paddle_x in *.
  cbn [FrameSpec.state Pong.ball Pong.paddle Ball.center Paddle.center
       Point.x] in Hx.
  rewrite Hp in Hx. vm_compute in Hx. discriminate.
Qed.

Lemma check_hit_score (g : Pong.t) :
  Pong.score (Pong.check_hit g) = Pong.score g
  \/ Pong.score (Pong.check_hit g) = Pong.score g + SCORE_HIT.
Proof.
  rewrite check_hit_is_step. unfold FrameSpec.step_hit.
  destruct (_ && _ && _); [right | left]; reflexivity.
Qed.

Lemma check_hit_keeps_flags (g : Pong.t) :
  Pong.holding_left (Pong.check_hit g) = Pong.holding_left g
  /\ Pong.holding_right (Pong.check_hit g) = Pong.holding_right g.
Proof.
  rewrite check_hit_is_step. unfold FrameSpec.step_hit.
  destruct (_ && _ && _); split; reflexivity.
Qed.

Lemma checks_keep_flags (g : Pong.t) :
  Pong.holding_left (Pong.check_bounce (Pong.check_hit g)) = Pong.holding_left g
  /\ Pong.holding_right (Pong.check_bounce (Pong.check_hit g)) = Pong.holding_right g.
Proof.
  rewrite check_bounce_is_step.
  destruct (check_hit_keeps_flags g) as [Hl Hr].
  split; [rewrite <- Hl | rewrite <- Hr]; reflexivity.
Qed.

Lemma before_checks_keeps_flags (g : Pong.t) :
  Pong.holding_left (before_checks g) = Pong.holding_left g
  /\ Pong.holding_right (before_checks g) = Pong.holding_right g.
Proof.
  unfold before_checks. rewrite advance_is_step, check_keys_is_step.
  split; reflexivity.
Qed.

(** C3. One call of [update] is the five steps of the frame procedure in
    their fixed order: the ball's advance, the held-key paddle movement
    ([move_down] for the decrease-y flag, then [move_up] for the
    increase-y flag, each with its own clamp), the miss check, the hit
    check and the boundary-bounce check.  The result, generator included,
    is that of the composition, so nothing else is changed; the frame
    always returns a state, and the two key flags are as they were. *)
Theorem update_is_the_five_steps (delta_time : Q) (g : Pong.t) (r : RandomSource) :
  Pong.update delta_time g r = FrameSpec.update_frame g r
  /\ Pong.update delta_time g r
     = (g1 <- Pong.check_miss
               (Pong.check_keys (Pong.set_ball (Ball.advance (Pong.ball g)) g)) ;;
        ret (Pong.check_bounce (Pong.check_hit g1))) r
  /\ exists g' r',
       Pong.update delta_time g r = Ok (g', r')
       /\ Pong.holding_left g' = Pong.holding_left g
       /\ Pong.holding_right g' = Pong.holding_right g.
Proof.
  split; [| split; [reflexivity |]].
  - unfold Pong.update, FrameSpec.update_frame, bind.
    rewrite advance_is_step, check_keys_is_step, check_miss_is_step.
    destruct (FrameSpec.step_miss _ r) as [[g1 r1] | e]; [| reflexivity].
    rewrite check_hit_is_step, check_bounce_is_step. reflexivity.
  - destruct (before_checks_keeps_flags g) as [Hl Hr].
    destruct (Z.lt_ge_cases SCREEN_WIDTH (ball_x g + ball_dx g)) as [Hm | Hm].
    + do 2 eexists. split; [apply update_on_miss; exact Hm |].
      destruct (checks_keep_flags (after_miss (before_checks g) r)) as [Hl' Hr'].
      rewrite Hl', Hr'. unfold after_miss. cbn [FrameSpec.state
        Pong.holding_left Pong.holding_right]. split; assumption.
    + do 2 eexists. split; [apply update_on_no_miss; exact Hm |].
      destruct (checks_keep_flags (before_checks g)) as [Hl' Hr'].
      rewrite Hl', Hr'. split; assumption.
Qed.

(** C2, as the code has it.  When the ball's centre is at
    [x = SCREEN_WIDTH + 1] before the frame, its horizontal velocity is
    not negative and the paddle is on its column [x = SCREEN_WIDTH -
    PADDLE_WIDTH], one [update] succeeds, lowers the score by exactly
    [SCORE_MISS] and leaves the ball's centre at [x = 0], whatever the
    vertical velocity, the paddle's height, the held keys and the
    generator are. *)
Theorem update_scores_miss_past_right_edge
    (delta_time : Q) (g : Pong.t) (r : RandomSource) :
  ball_x g = SCREEN_WIDTH + 1 ->
  0 <= ball_dx g ->
  paddle_x g = SCREEN_WIDTH - PADDLE_WIDTH ->
  exists g' r',
    Pong.update delta_time g r = Ok (g', r')
    /\ Pong.score g' = Pong.score g - SCORE_MISS
    /\ ball_x g' = 0.
Proof.
  intros Hx Hdx Hp.
  destruct (before_checks_fields g) as [_ [Hpx Hsc]].
  do 2 eexists. split.
  - apply update_on_miss. lia.
  - rewrite no_hit_after_miss by congruence.
    destruct (check_bounce_keeps (after_miss (before_checks g) r)) as [Hbx Hbs].
    rewrite Hbx, Hbs. split; [| reflexivity].
    unfold after_miss. cbn [FrameSpec.state Pong.score]. congruence.
Qed.

Lemma update_scores_miss_past_right_edge_witness :
  exists g' r',
    Pong.update 0 sample_past_edge (constant_source 0) = Ok (g', r')
    /\ Pong.score g' = Pong.score sample_past_edge - SCORE_MISS
    /\ ball_x g' = 0.
Proof.
  apply (update_scores_miss_past_right_edge 0 sample_past_edge (constant_source 0));
    vm_compute; (reflexivity || discriminate).
Defined.

(** The column of the paddle matters: were the paddle at the left edge,
    the restarted ball could be hit in the frame of its miss, and the
    score would drop by [SCORE_MISS - SCORE_HIT] only.  The constructor
    puts the paddle at [x = SCREEN_WIDTH - PADDLE_WIDTH] and no method
    changes that coordinate. *)
Lemma miss_then_hit_with_displaced_paddle :
  exists g' r',
    Pong.update 0 sample_displaced_paddle (constant_source 0) = Ok (g', r')
    /\ Pong.score g' = Pong.score sample_displaced_paddle - SCORE_MISS + SCORE_HIT.
Proof.
  exists (FrameSpec.state 0 10 4 2 0 10 (-4) false false),
         (mkRandom (fun _ => 0) 3).
  split; vm_compute; reflexivity.
Qed.

Lemma apply_move_keeps_column (m : move) (p : Paddle.t) :
  Point.x (Paddle.center (apply_move m p)) = Point.x (Paddle.center p).
Proof.
  destruct p as [[px py]].
  destruct m; cbn [apply_move]; unfold Paddle.move_up, Paddle.move_down;
    cbn [Paddle.center Point.x Point.y]; split_tests; reflexivity.
Qed.

(** C2 as stated fails for a ball that moves left: the advance takes it
    from 401 back to 396 before the miss check looks, so no miss is
    scored and the ball is not restarted. *)
Lemma update_no_miss_when_leaving_counterexample :
  ball_x sample_past_edge_leaving = SCREEN_WIDTH + 1
  /\ exists g' r',
       Pong.update 0 sample_past_edge_leaving (constant_source 0) = Ok (g', r')
       /\ Pong.score g' = Pong.score sample_past_edge_leaving
       /\ ball_x g' = 396.
Proof.
  split; [reflexivity |].
  exists (FrameSpec.state 396 152 (-5) 2 390 150 0 false false),
         (constant_source 0).
  repeat split; vm_compute; reflexivity.
Qed.

(** C10. With the paddle on its column, a frame never scores both a miss
    and a hit: after a miss the hit check leaves the restarted state as
    it is.  Every frame succeeds and changes the score by exactly one of
    [- SCORE_MISS], [0] and [+ SCORE_HIT]; the penalty is taken exactly
    when the advanced ball is past the right edge. *)
Theorem frame_scores_miss_or_hit_never_both
    (delta_time : Q) (g : Pong.t) (r : RandomSource) :
  paddle_x g = SCREEN_WIDTH - PADDLE_WIDTH ->
  exists g1 r1 g',
    Pong.check_miss (before_checks g) r = Ok (g1, r1)
    /\ Pong.update delta_time g r = Ok (g', r1)
    /\ ((SCREEN_WIDTH < ball_x g + ball_dx g
         /\ Pong.check_hit g1 = g1
         /\ Pong.score g' = Pong.score g - SCORE_MISS)
        \/ (ball_x g + ball_dx g <= SCREEN_WIDTH
            /\ g1 = before_checks g
            /\ (Pong.score g' = Pong.score g
                \/ Pong.score g' = Pong.score g + SCORE_HIT))).
Proof.
  intros Hp.
  destruct (before_checks_fields g) as [Hbx [Hpx Hsc]].
  destruct (Z.lt_ge_cases SCREEN_WIDTH (ball_x g + ball_dx g)) as [Hm | Hm].
  - exists (after_miss (before_checks g) r), (next (next (next r))).
    eexists. split; [apply check_miss_fires; lia |].
    split; [apply update_on_miss; exact Hm |].
    left. split; [exact Hm |].
    rewrite no_hit_after_miss by congruence. split; [reflexivity |].
    destruct (check_bounce_keeps (after_miss (before_checks g) r)) as [_ Hbs].
    rewrite Hbs. unfold after_miss. cbn [FrameSpec.state Pong.score]. congruence.
  - exists (before_checks g), r. eexists.
    split; [apply check_miss_idle; lia |].
    split; [apply update_on_no_miss; exact Hm |].
    right. split; [exact Hm |]. split; [reflexivity |].
    destruct (check_bounce_keeps (Pong.check_hit (before_checks g))) as [_ Hbs].
    rewrite Hbs, <- Hsc. apply check_hit_score.
Qed.

Lemma frame_scores_miss_or_hit_never_both_witness :
  paddle_x sample_hit = SCREEN_WIDTH - PADDLE_WIDTH
  /\ exists g1 r1 g',
    Pong.check_miss (before_checks sample_hit) (constant_source 0) = Ok (g1, r1)
    /\ Pong.update 0 sample_hit (constant_source 0) = Ok (g', r1)
    /\ ((SCREEN_WIDTH < ball_x sample_hit + ball_dx sample_hit
         /\ Pong.check_hit g1 = g1
         /\ Pong.score g' = Pong.score sample_hit - SCORE_MISS)
        \/ (ball_x sample_hit + ball_dx sample_hit <= SCREEN_WIDTH
            /\ g1 = before_checks sample_hit
            /\ (Pong.score g' = Pong.score sample_hit
                \/ Pong.score g' = Pong.score sample_hit + SCORE_HIT))).
Proof.
  split; [reflexivity |].
  apply (frame_scores_miss_or_hit_never_both 0 sample_hit (constant_source 0)).
  reflexivity.
Defined.

(** ** The paddle *)

Lemma upper_line_value : upper_line = 275.
Proof. reflexivity. Qed.

Lemma lower_line_value : lower_line = 25.
Proof. reflexivity. Qed.

Lemma move_up_below (px py : Z) :
  py < upper_line ->
  Paddle.move_up (Paddle.mk (Point.mk px py))
  = Paddle.mk (Point.mk px (py + MOVE_AMOUNT)).
Proof.
  intros H. unfold Paddle.move_up. cbn [Paddle.center Point.y]. fold upper_line.
  destruct (Z.ltb_spec py upper_line); [reflexivity | lia].
Qed.

Lemma move_up_at_rest (px py : Z) :
  upper_line <= py ->
  Paddle.move_up (Paddle.mk (Point.mk px py)) = Paddle.mk (Point.mk px py).
Proof.
  intros H. unfold Paddle.move_up. cbn [Paddle.center Point.y]. fold upper_line.
  destruct (Z.ltb_spec py upper_line); [lia | reflexivity].
Qed.

Lemma move_down_above (px py : Z) :
  lower_line < py ->
  Paddle.move_down (Paddle.mk (Point.mk px py))
  = Paddle.mk (Point.mk px (py - MOVE_AMOUNT)).
Proof.
  intros H. unfold Paddle.move_down. cbn [Paddle.center Point.y]. fold lower_line.
  destruct (Z.ltb_spec lower_line py); [reflexivity | lia].
Qed.

Lemma move_down_at_rest (px py : Z) :
  py <= lower_line ->
  Paddle.move_down (Paddle.mk (Point.mk px py)) = Paddle.mk (Point.mk px py).
Proof.
  intros H. unfold Paddle.move_down. cbn [Paddle.center Point.y]. fold lower_line.
  destruct (Z.ltb_spec lower_line py); [lia | reflexivity].
Qed.

Lemma rest_height_unfold (py : Z) :
  rest_height py
  = if py <? 275 then py + 4 * ((278 - py) / 4) else py.
Proof.
  unfold rest_height. fold upper_line. rewrite upper_line_value.
  change MOVE_AMOUNT with 4.
  destruct (py <? 275); [| reflexivity].
  do 3 f_equal. lia.
Qed.

Lemma steps_to_rest_unfold (py : Z) :
  steps_to_rest py = Z.to_nat ((278 - py) / 4).
Proof.
  unfold steps_to_rest. fold upper_line. rewrite upper_line_value.
  change MOVE_AMOUNT with 4. do 2 f_equal. lia.
Qed.

(** Once the rest count is passed, [n] calls of [move_up] have brought the
    centre to the rest height, on the same column. *)
Lemma move_up_n_reaches_rest (n : nat) :
  forall px py : Z,
    (steps_to_rest py <= n)%nat ->
    move_up_n n (Paddle.mk (Point.mk px py))
    = Paddle.mk (Point.mk px (rest_height py)).
Proof.
  induction n as [| n IH]; intros px py Hn; cbn [move_up_n].
  - rewrite steps_to_rest_unfold in Hn. rewrite rest_height_unfold.
    destruct (Z.ltb_spec py 275); [exfalso; euclid | reflexivity].
  - destruct (Z.lt_ge_cases py upper_line) as [Hlow | Hhigh].
    + rewrite (move_up_below px py Hlow), IH.
      * rewrite !rest_height_unfold. rewrite upper_line_value in Hlow.
        constants. do 2 f_equal.
        destruct (Z.ltb_spec py 275); [| lia].
        destruct (Z.ltb_spec (py + 4) 275); euclid.
      * rewrite steps_to_rest_unfold in *. rewrite upper_line_value in Hlow.
        constants. euclid.
    + rewrite (move_up_at_rest px py Hhigh). apply IH.
      rewrite steps_to_rest_unfold. rewrite upper_line_value in Hhigh. euclid.
Qed.

(** The centre never rises above the higher of its start and the last
    height below the line plus one step. *)
Lemma move_up_n_bounded (n : nat) :
  forall px py : Z,
    paddle_height_of (move_up_n n (Paddle.mk (Point.mk px py)))
    <= Z.max py (upper_line + MOVE_AMOUNT - 1).
Proof.
  induction n as [| n IH]; intros px py; cbn [move_up_n].
  - unfold paddle_height_of. cbn [Paddle.center Point.y]. lia.
  - destruct (Z.lt_ge_cases py upper_line) as [Hlow | Hhigh].
    + rewrite (move_up_below px py Hlow).
      specialize (IH px (py + MOVE_AMOUNT)). lia.
    + rewrite (move_up_at_rest px py Hhigh). apply IH.
Qed.

Lemma rest_height_bounds (py : Z) :
  (py < upper_line -> upper_line <= rest_height py < upper_line + MOVE_AMOUNT)
  /\ (upper_line <= py -> rest_height py = py).
Proof.
  rewrite rest_height_unfold, upper_line_value. constants.
  destruct (Z.ltb_spec py 275); split; intros; euclid.
Qed.

(** C4, as the code has it.  From any paddle, repeated [move_up] brings
    the centre to rest at [rest_height], the first of [y], [y + 4],
    [y + 8], ... that is not below [SCREEN_HEIGHT - PADDLE_HEIGHT / 2];
    there a further [move_up] does nothing.  From below the line the rest
    height is at or above the line and less than one [MOVE_AMOUNT] above
    it, and it is the line itself exactly when the distance to the line is
    a multiple of [MOVE_AMOUNT]; from the line or above, the paddle does
    not move at all.  Along the way the centre never exceeds the higher
    of its start and the line plus [MOVE_AMOUNT - 1]. *)
Theorem move_up_settles_within_one_step_of_line (p : Paddle.t) :
  (forall n : nat,
      (steps_to_rest (paddle_height_of p) <= n)%nat ->
      move_up_n n p
      = Paddle.mk (Point.mk (Point.x (Paddle.center p))
                            (rest_height (paddle_height_of p))))
  /\ Paddle.move_up
       (Paddle.mk (Point.mk (Point.x (Paddle.center p))
                            (rest_height (paddle_height_of p))))
     = Paddle.mk (Point.mk (Point.x (Paddle.center p))
                           (rest_height (paddle_height_of p)))
  /\ (paddle_height_of p < SCREEN_HEIGHT - PADDLE_HEIGHT / 2 ->
        SCREEN_HEIGHT - PADDLE_HEIGHT / 2 <= rest_height (paddle_height_of p)
        /\ rest_height (paddle_height_of p)
           < SCREEN_HEIGHT - PADDLE_HEIGHT / 2 + MOVE_AMOUNT
        /\ (rest_height (paddle_height_of p) = SCREEN_HEIGHT - PADDLE_HEIGHT / 2
            <-> (SCREEN_HEIGHT - PADDLE_HEIGHT / 2 - paddle_height_of p)
                mod MOVE_AMOUNT = 0))
  /\ (SCREEN_HEIGHT - PADDLE_HEIGHT / 2 <= paddle_height_of p ->
        rest_height (paddle_height_of p) = paddle_height_of p)
  /\ (forall n : nat,
        paddle_height_of (move_up_n n p)
        <= Z.max (paddle_height_of p)
                 (SCREEN_HEIGHT - PADDLE_HEIGHT / 2 + MOVE_AMOUNT - 1)).
Proof.
  fold upper_line. open_paddle p.
  destruct (rest_height_bounds py) as [Hlow Hhigh].
  split; [intros n Hn; apply move_up_n_reaches_rest; exact Hn |].
  split.
  { apply move_up_at_rest.
    destruct (Z.lt_ge_cases py upper_line) as [H | H].
    - apply Hlow in H. lia.
    - rewrite (Hhigh H). exact H. }
  split.
  { intros H. destruct (Hlow H) as [H1 H2]. split; [exact H1 |].
    split; [exact H2 |].
    rewrite rest_height_unfold, upper_line_value in *. constants.
    destruct (Z.ltb_spec py 275); [| lia].
    split; intros; euclid. }
  split; [exact Hhigh |].
  intros n. apply move_up_n_bounded.
Qed.

Lemma move_up_settles_within_one_step_of_line_witness :
  (steps_to_rest (paddle_height_of (paddle_at 263)) <= 5)%nat
  /\ move_up_n 5 (paddle_at 263) = paddle_at 275
  /\ paddle_height_of (paddle_at 263) < SCREEN_HEIGHT - PADDLE_HEIGHT / 2
  /\ rest_height (paddle_height_of (paddle_at 263)) = 275.
Proof.
  assert (Hn : (steps_to_rest (paddle_height_of (paddle_at 263)) <= 5)%nat)
    by (vm_compute; lia).
  assert (Hb : paddle_height_of (paddle_at 263) < SCREEN_HEIGHT - PADDLE_HEIGHT / 2)
    by reflexivity.
  destruct (move_up_settles_within_one_step_of_line (paddle_at 263))
    as [Hrest [_ [Hbelow _]]].
  destruct (Hbelow Hb) as [_ [_ [_ Hline]]].
  split; [exact Hn |].
  split; [rewrite (Hrest 5%nat Hn); reflexivity |].
  split; [exact Hb |].
  apply Hline. reflexivity.
Defined.

(** C4 as stated fails from the initial paddle: the centre climbs from
    150 in steps of 4, passes 274 and comes to rest at 278, above the
    line at 275, where [move_up] no longer moves it. *)
Lemma move_up_rests_above_line_counterexample :
  paddle_height_of Paddle.init = 150
  /\ paddle_height_of (move_up_n 32 Paddle.init) = 278
  /\ Paddle.move_up (move_up_n 32 Paddle.init) = move_up_n 32 Paddle.init
  /\ paddle_height_of (move_up_n 1000 Paddle.init) = 278
  /\ SCREEN_HEIGHT - PADDLE_HEIGHT / 2 < paddle_height_of (move_up_n 32 Paddle.init).
Proof. repeat split; vm_compute; reflexivity. Qed.

Lemma init_on_grid : on_grid Paddle.init.
Proof. unfold on_grid. split; [split |]; reflexivity. Qed.

Lemma apply_move_on_grid (m : move) (p : Paddle.t) :
  on_grid p -> on_grid (apply_move m p).
Proof.
  unfold on_grid. open_paddle p. intros [Hb Hm].
  destruct m; cbn [apply_move].
  - destruct (Z.lt_ge_cases py upper_line) as [H | H].
    + rewrite (move_up_below px py H). cbn [Paddle.center Point.y].
      rewrite upper_line_value, lower_line_value in *. constants. euclid.
    + rewrite (move_up_at_rest px py H). cbn [Paddle.center Point.y]. tauto.
  - destruct (Z.lt_ge_cases lower_line py) as [H | H].
    + rewrite (move_down_above px py H). cbn [Paddle.center Point.y].
      rewrite upper_line_value, lower_line_value in *. constants. euclid.
    + rewrite (move_down_at_rest px py H). cbn [Paddle.center Point.y]. tauto.
Qed.

Lemma run_moves_on_grid (ms : list move) :
  forall p : Paddle.t, on_grid p -> on_grid (run_moves ms p).
Proof.
  induction ms as [| m ms IH]; intros p Hp; [exact Hp |].
  cbn [run_moves fold_left]. apply IH. apply apply_move_on_grid. exact Hp.
Qed.

(** C9. From the initial paddle, after any sequence of [move_up] and
    [move_down] calls the centre's height is strictly between
    [PADDLE_HEIGHT / 2 - MOVE_AMOUNT] and
    [SCREEN_HEIGHT - PADDLE_HEIGHT / 2 + MOVE_AMOUNT], that is between 21
    and 279.  Both clamp lines are in fact passed by some sequence, by
    less than one step. *)
Theorem paddle_within_one_step_of_clamp_lines (ms : list move) :
  PADDLE_HEIGHT / 2 - MOVE_AMOUNT < paddle_height_of (run_moves ms Paddle.init)
  /\ paddle_height_of (run_moves ms Paddle.init)
     < SCREEN_HEIGHT - PADDLE_HEIGHT / 2 + MOVE_AMOUNT
  /\ 21 < paddle_height_of (run_moves ms Paddle.init) < 279
  /\ (exists up : list move,
        SCREEN_HEIGHT - PADDLE_HEIGHT / 2
        < paddle_height_of (run_moves up Paddle.init))
  /\ (exists down : list move,
        paddle_height_of (run_moves down Paddle.init) < PADDLE_HEIGHT / 2).
Proof.
  destruct (run_moves_on_grid ms Paddle.init init_on_grid) as [[Hlo Hhi] _].
  fold upper_line lower_line.
  split; [exact Hlo |]. split; [exact Hhi |].
  rewrite upper_line_value, lower_line_value in *. constants.
  split; [lia |].
  split; [exists (repeat Up 32) | exists (repeat Down 32)];
    vm_compute; reflexivity.
Qed.

(** ** Construction of the game *)

(** The state every successful construction returns. *)
Lemma init_body_eq (r : RandomSource) :
  Pong.init_body r
  = Ok (Pong.mk (Ball.mk (Point.mk BALL_RADIUS (rolled_y r))
                         (Velocity.mk (rolled_dx r) (rolled_dy r)))
                Paddle.init 0 false false,
        next (next (next r))).
Proof. unfold Pong.init_body, bind. rewrite Ball_init_eq. reflexivity. Qed.

(** C5, as the code has it.  [Pong.__init__] validates nothing itself: it
    hands [width] and [height] to the base-class constructor and reads
    them nowhere else.  When the base class raises, that exception is the
    result of the construction; when it accepts the size, the
    construction succeeds, however small the size is, and the state is
    the one of the fixed arena: the ball's centre at [x = BALL_RADIUS]
    with [y] in [[BALL_RADIUS, SCREEN_HEIGHT - BALL_RADIUS]], the paddle
    at its initial place, score 0, no key held, the same for every size
    the base class accepts. *)
Theorem Pong_init_does_no_validation
    (window_init : WindowInit) (width height : Z) (r : RandomSource) :
  (forall e : exn,
      window_init width height = Raise e ->
      Pong.init window_init width height r = Raise e)
  /\ (window_init width height = Ok tt ->
      (exists g,
          Pong.init window_init width height r = Ok (g, next (next (next r)))
          /\ ball_x g = BALL_RADIUS
          /\ BALL_RADIUS <= ball_y g <= SCREEN_HEIGHT - BALL_RADIUS
          /\ Pong.paddle g = Paddle.init
          /\ paddle_x g = SCREEN_WIDTH - PADDLE_WIDTH
          /\ paddle_y g = SCREEN_HEIGHT / 2
          /\ Pong.score g = 0
          /\ Pong.holding_left g = false
          /\ Pong.holding_right g = false)
      /\ (forall width' height' : Z,
             window_init width' height' = Ok tt ->
             Pong.init window_init width' height' r
             = Pong.init window_init width height r)).
Proof.
  split.
  - intros e He. unfold Pong.init. rewrite He. reflexivity.
  - intros Hok. split.
    + eexists. split.
      * unfold Pong.init. rewrite Hok. apply init_body_eq.
      * destruct (rolled_bounds r) as [Hy _].
        split; [reflexivity |]. split; [exact Hy |]. repeat split.
    + intros width' height' Hok'. unfold Pong.init. rewrite Hok, Hok'.
      reflexivity.
Qed.

Lemma Pong_init_does_no_validation_witness :
  strict_window 5 5 = Raise (External 1)
  /\ Pong.init strict_window 5 5 (constant_source 0) = Raise (External 1)
  /\ lenient_window 5 5 = Ok tt
  /\ Pong.init lenient_window 5 5 (constant_source 0)
     = Pong.init lenient_window SCREEN_WIDTH SCREEN_HEIGHT (constant_source 0).
Proof.
  assert (Hs : strict_window 5 5 = Raise (External 1)) by reflexivity.
  assert (Hl : lenient_window 5 5 = Ok tt) by reflexivity.
  destruct (Pong_init_does_no_validation strict_window 5 5 (constant_source 0))
    as [Hraise _].
  destruct (Pong_init_does_no_validation lenient_window
              SCREEN_WIDTH SCREEN_HEIGHT (constant_source 0))
    as [_ Haccept].
  destruct (Haccept eq_refl) as [_ Hsame].
  split; [exact Hs |].
  split; [exact (Hraise (External 1) Hs) |].
  split; [exact Hl |].
  exact (Hsame 5 5 Hl).
Defined.

(** C5 as stated fails: a 5 by 5 arena, narrower and lower than the ball
    is wide, is not rejected by the construction.  Whenever the window
    library lets that size through, the construction succeeds and places
    the ball and the paddle beyond both dimensions. *)
Lemma Pong_init_places_ball_outside_tiny_arena_counterexample :
  5 < 2 * BALL_RADIUS
  /\ lenient_window 5 5 = Ok tt
  /\ exists g r',
       Pong.init lenient_window 5 5 (constant_source 0) = Ok (g, r')
       /\ 5 < ball_x g /\ 5 < ball_y g /\ 5 < paddle_x g /\ 5 < paddle_y g.
Proof.
  split; [reflexivity |]. split; [reflexivity |].
  exists (Pong.mk (Ball.mk (Point.mk 10 10) (Velocity.mk 4 2))
                  Paddle.init 0 false false),
         (mkRandom (fun _ => 0) 3).
  repeat split; vm_compute; reflexivity.
Qed.

(** * Further properties of the classes *)

(** ** The ball *)

(** X1. The two bounces are involutions and they commute: a bounce
    applied twice gives the ball back, and a horizontal and a vertical
    bounce can be made in either order. *)
Theorem bounces_are_commuting_involutions (b : Ball.t) :
  Ball.bounce_horizontal (Ball.bounce_horizontal b) = b
  /\ Ball.bounce_vertical (Ball.bounce_vertical b) = b
  /\ Ball.bounce_horizontal (Ball.bounce_vertical b)
     = Ball.bounce_vertical (Ball.bounce_horizontal b).
Proof.
  open_ball b.
  unfold Ball.bounce_horizontal, Ball.bounce_vertical,
    Velocity.set_dx, Velocity.set_dy.
  cbn [Ball.center Ball.velocity Velocity.dx Velocity.dy].
  repeat split; do 2 f_equal; lia.
Qed.

Lemma advance_n_fields (n : nat) :
  forall bx by_ vx vy : Z,
    advance_n n (Ball.mk (Point.mk bx by_) (Velocity.mk vx vy))
    = Ball.mk (Point.mk (bx + Z.of_nat n * vx) (by_ + Z.of_nat n * vy))
              (Velocity.mk vx vy).
Proof.
  induction n as [| n IH]; intros bx by_ vx vy.
  - cbn [advance_n]. do 2 f_equal; lia.
  - cbn [advance_n]. unfold Ball.advance, Point.set_x, Point.set_y.
    cbn [Ball.center Ball.velocity Point.x Point.y Velocity.dx Velocity.dy].
    rewrite IH. do 2 f_equal; lia.
Qed.

(** X2. Motion without checks is linear: [n] calls of [advance] move the
    centre by [n] times the velocity and leave the velocity alone. *)
Theorem advance_n_is_linear (n : nat) (b : Ball.t) :
  Point.x (Ball.center (advance_n n b))
  = Point.x (Ball.center b) + Z.of_nat n * Velocity.dx (Ball.velocity b)
  /\ Point.y (Ball.center (advance_n n b))
     = Point.y (Ball.center b) + Z.of_nat n * Velocity.dy (Ball.velocity b)
  /\ Ball.velocity (advance_n n b) = Ball.velocity b.
Proof.
  open_ball b. rewrite advance_n_fields.
  cbn [Ball.center Ball.velocity Point.x Point.y Velocity.dx Velocity.dy].
  repeat split.
Qed.

(** X3. Reversing both velocity components turns the ball around on its
    path: after [n] advances, the two bounces and [n] more advances the
    centre is where it started and the velocity is the opposite of the
    initial one. *)
Theorem advance_bounce_advance_returns (n : nat) (b : Ball.t) :
  advance_n n (Ball.bounce_vertical (Ball.bounce_horizontal (advance_n n b)))
  = Ball.mk (Ball.center b)
            (Velocity.mk (- Velocity.dx (Ball.velocity b))
                         (- Velocity.dy (Ball.velocity b))).
Proof.
  open_ball b. rewrite advance_n_fields.
  unfold Ball.bounce_horizontal, Ball.bounce_vertical,
    Velocity.set_dx, Velocity.set_dy.
  cbn [Ball.center Ball.velocity Point.x Point.y Velocity.dx Velocity.dy].
  rewrite advance_n_fields. f_equal; f_equal; lia.
Qed.

(** X4. A restart always succeeds, reads exactly three draws and forgets
    the ball it is given: the result is the ball a construction would
    make from the same generator, moved from [x = BALL_RADIUS] to
    [x = 0].  So the restarted ball has [y] in
    [[BALL_RADIUS, SCREEN_HEIGHT - BALL_RADIUS]], [dx] in
    [[MOVE_AMOUNT, 2 * MOVE_AMOUNT]] and [dy] in
    [[MOVE_AMOUNT - 2, MOVE_AMOUNT - 1]]. *)
Theorem restart_is_construction_at_left_edge (b : Ball.t) (r : RandomSource) :
  exists b0 b',
    Ball.init r = Ok (b0, next (next (next r)))
    /\ Ball.restart b r = Ok (b', next (next (next r)))
    /\ b' = Ball.mk (Point.set_x 0 (Ball.center b0)) (Ball.velocity b0)
    /\ Point.x (Ball.center b') = 0
    /\ BALL_RADIUS <= Point.y (Ball.center b') <= SCREEN_HEIGHT - BALL_RADIUS
    /\ MOVE_AMOUNT <= Velocity.dx (Ball.velocity b') <= 2 * MOVE_AMOUNT
    /\ MOVE_AMOUNT - 2 <= Velocity.dy (Ball.velocity b') <= MOVE_AMOUNT - 1.
Proof.
  do 2 eexists.
  split; [apply Ball_init_eq |].
  split; [apply Ball_restart_eq |].
  destruct (rolled_bounds r) as [Hy [Hdx Hdy]].
  cbn [Ball.center Ball.velocity Point.x Point.y Velocity.dx Velocity.dy].
  repeat split; tauto.
Qed.

(** ** The paddle's way down *)

Lemma rest_depth_unfold (py : Z) :
  rest_depth py = if 25 <? py then py - 4 * ((py - 22) / 4) else py.
Proof.
  unfold rest_depth. fold lower_line. rewrite lower_line_value.
  change MOVE_AMOUNT with 4.
  destruct (25 <? py); [| reflexivity].
  do 3 f_equal. lia.
Qed.

Lemma steps_to_depth_unfold (py : Z) :
  steps_to_depth py = Z.to_nat ((py - 22) / 4).
Proof.
  unfold steps_to_depth. fold lower_line. rewrite lower_line_value.
  change MOVE_AMOUNT with 4. do 2 f_equal. lia.
Qed.

Lemma move_down_n_reaches_rest (n : nat) :
  forall px py : Z,
    (steps_to_depth py <= n)%nat ->
    move_down_n n (Paddle.mk (Point.mk px py))
    = Paddle.mk (Point.mk px (rest_depth py)).
Proof.
  induction n as [| n IH]; intros px py Hn; cbn [move_down_n].
  - rewrite steps_to_depth_unfold in Hn. rewrite rest_depth_unfold.
    destruct (Z.ltb_spec 25 py); [exfalso; euclid | reflexivity].
  - destruct (Z.lt_ge_cases lower_line py) as [Hhigh | Hlow].
    + rewrite (move_down_above px py Hhigh), IH.
      * rewrite !rest_depth_unfold. rewrite lower_line_value in Hhigh.
        constants. do 2 f_equal.
        destruct (Z.ltb_spec 25 py); [| lia].
        destruct (Z.ltb_spec 25 (py - 4)); euclid.
      * rewrite steps_to_depth_unfold in *. rewrite lower_line_value in Hhigh.
        constants. euclid.
    + rewrite (move_down_at_rest px py Hlow). apply IH.
      rewrite steps_to_depth_unfold. rewrite lower_line_value in Hlow. euclid.
Qed.

Lemma move_down_n_bounded (n : nat) :
  forall px py : Z,
    Z.min py (lower_line - MOVE_AMOUNT + 1)
    <= paddle_height_of (move_down_n n (Paddle.mk (Point.mk px py))).
Proof.
  induction n as [| n IH]; intros px py; cbn [move_down_n].
  - unfold paddle_height_of. cbn [Paddle.center Point.y]. lia.
  - destruct (Z.lt_ge_cases lower_line py) as [Hhigh | Hlow].
    + rewrite (move_down_above px py Hhigh).
      specialize (IH px (py - MOVE_AMOUNT)). lia.
    + rewrite (move_down_at_rest px py Hlow). apply IH.
Qed.

(** X5. Repeated [move_down] settles the way repeated [move_up] does, on
    the other side: from any paddle the centre comes to rest at
    [rest_depth], the first of [y], [y - 4], [y - 8], ... that is not above
    [PADDLE_HEIGHT / 2], where a further [move_down] does nothing.  From
    above the line the rest height is at or below the line and less than
    one [MOVE_AMOUNT] below it; from the line or below, the paddle does
    not move.  The centre never goes below the lower of its start and the
    line minus [MOVE_AMOUNT - 1]. *)
Theorem move_down_settles_within_one_step_of_line (p : Paddle.t) :
  (forall n : nat,
      (steps_to_depth (paddle_height_of p) <= n)%nat ->
      move_down_n n p
      = Paddle.mk (Point.mk (Point.x (Paddle.center p))
                            (rest_depth (paddle_height_of p))))
  /\ Paddle.move_down
       (Paddle.mk (Point.mk (Point.x (Paddle.center p))
                            (rest_depth (paddle_height_of p))))
     = Paddle.mk (Point.mk (Point.x (Paddle.center p))
                           (rest_depth (paddle_height_of p)))
  /\ (PADDLE_HEIGHT / 2 < paddle_height_of p ->
        PADDLE_HEIGHT / 2 - MOVE_AMOUNT < rest_depth (paddle_height_of p)
        /\ rest_depth (paddle_height_of p) <= PADDLE_HEIGHT / 2)
  /\ (paddle_height_of p <= PADDLE_HEIGHT / 2 ->
        rest_depth (paddle_height_of p) = paddle_height_of p)
  /\ (forall n : nat,
        Z.min (paddle_height_of p) (PADDLE_HEIGHT / 2 - MOVE_AMOUNT + 1)
        <= paddle_height_of (move_down_n n p)).
Proof.
  fold lower_line. open_paddle p.
  assert (Hrest : (lower_line < py ->
                   lower_line - MOVE_AMOUNT < rest_depth py <= lower_line)
                  /\ (py <= lower_line -> rest_depth py = py)).
  { rewrite rest_depth_unfold, lower_line_value. constants.
    destruct (Z.ltb_spec 25 py); split; intros; euclid. }
  destruct Hrest as [Hhigh Hlow].
  split; [intros n Hn; apply move_down_n_reaches_rest; exact Hn |].
  split.
  { apply move_down_at_rest.
    destruct (Z.lt_ge_cases lower_line py) as [H | H].
    - apply Hhigh in H. lia.
    - rewrite (Hlow H). exact H. }
  split; [exact Hhigh |].
  split; [exact Hlow |].
  intros n. apply move_down_n_bounded.
Qed.

Lemma move_down_settles_within_one_step_of_line_witness :
  (steps_to_depth (paddle_height_of Paddle.init) <= 32)%nat
  /\ move_down_n 32 Paddle.init = paddle_at 22
  /\ PADDLE_HEIGHT / 2 < paddle_height_of Paddle.init
  /\ PADDLE_HEIGHT / 2 - MOVE_AMOUNT < rest_depth (paddle_height_of Paddle.init).
Proof.
  assert (Hn : (steps_to_depth (paddle_height_of Paddle.init) <= 32)%nat)
    by (vm_compute; lia).
  assert (Hb : PADDLE_HEIGHT / 2 < paddle_height_of Paddle.init) by reflexivity.
  destruct (move_down_settles_within_one_step_of_line Paddle.init)
    as [Hrest [_ [Habove _]]].
  split; [exact Hn |].
  split; [rewrite (Hrest 32%nat Hn); reflexivity |].
  split; [exact Hb |].
  apply (Habove Hb).
Defined.

(** X6. [move_up] followed by [move_down] gives the paddle back exactly
    when the first call moved it and left it above the lower line, that
    is from a height above [PADDLE_HEIGHT / 2 - MOVE_AMOUNT] and below
    [SCREEN_HEIGHT - PADDLE_HEIGHT / 2]; from the upper line or above,
    where [move_up] does nothing, the pair lowers the paddle by
    [MOVE_AMOUNT]. *)
Theorem move_up_then_down (p : Paddle.t) :
  (PADDLE_HEIGHT / 2 - MOVE_AMOUNT < paddle_height_of p
   /\ paddle_height_of p < SCREEN_HEIGHT - PADDLE_HEIGHT / 2 ->
     Paddle.move_down (Paddle.move_up p) = p)
  /\ (SCREEN_HEIGHT - PADDLE_HEIGHT / 2 <= paddle_height_of p ->
        paddle_height_of (Paddle.move_down (Paddle.move_up p))
        = paddle_height_of p - MOVE_AMOUNT)
  /\ (paddle_height_of p <= PADDLE_HEIGHT / 2 - MOVE_AMOUNT ->
        paddle_height_of (Paddle.move_down (Paddle.move_up p))
        = paddle_height_of p + MOVE_AMOUNT).
Proof.
  fold upper_line lower_line. open_paddle p.
  split; [| split].
  - intros [Hlo Hhi]. rewrite (move_up_below px py Hhi).
    rewrite move_down_above by lia. do 2 f_equal. lia.
  - intros H. rewrite (move_up_at_rest px py H).
    rewrite move_down_above.
    + reflexivity.
    + rewrite upper_line_value in H. rewrite lower_line_value. lia.
  - intros H. rewrite lower_line_value in H. change MOVE_AMOUNT with 4 in H.
    rewrite move_up_below by (rewrite upper_line_value; lia).
    rewrite move_down_at_rest; [reflexivity |].
    rewrite lower_line_value. change MOVE_AMOUNT with 4. lia.
Qed.

Lemma move_up_then_down_witness :
  (PADDLE_HEIGHT / 2 - MOVE_AMOUNT < paddle_height_of Paddle.init
   /\ paddle_height_of Paddle.init < SCREEN_HEIGHT - PADDLE_HEIGHT / 2)
  /\ Paddle.move_down (Paddle.move_up Paddle.init) = Paddle.init
  /\ paddle_height_of (Paddle.move_down (Paddle.move_up (paddle_at 278))) = 274.
Proof.
  assert (Hin : PADDLE_HEIGHT / 2 - MOVE_AMOUNT < paddle_height_of Paddle.init
                /\ paddle_height_of Paddle.init < SCREEN_HEIGHT - PADDLE_HEIGHT / 2)
    by (split; reflexivity).
  assert (Htop : SCREEN_HEIGHT - PADDLE_HEIGHT / 2 <= paddle_height_of (paddle_at 278))
    by (vm_compute; discriminate).
  destruct (move_up_then_down Paddle.init) as [Hback _].
  destruct (move_up_then_down (paddle_at 278)) as [_ [Hdrop _]].
  split; [exact Hin |].
  split; [exact (Hback Hin) |].
  rewrite (Hdrop Htop). reflexivity.
Defined.

(** ** Held keys *)

(** X7. With both keys held [check_keys] calls [move_down] and then
    [move_up].  Strictly between [PADDLE_HEIGHT / 2] and
    [SCREEN_HEIGHT - PADDLE_HEIGHT / 2 + MOVE_AMOUNT] the two calls cancel
    and the state is unchanged; at or below the lower line only [move_up]
    acts and the paddle rises by [MOVE_AMOUNT]; from
    [SCREEN_HEIGHT - PADDLE_HEIGHT / 2 + MOVE_AMOUNT] on only [move_down]
    acts and the paddle drops by [MOVE_AMOUNT]. *)
Theorem check_keys_with_both_held (g : Pong.t) :
  Pong.holding_left g = true ->
  Pong.holding_right g = true ->
  (PADDLE_HEIGHT / 2 < paddle_y g
   /\ paddle_y g < SCREEN_HEIGHT - PADDLE_HEIGHT / 2 + MOVE_AMOUNT ->
     Pong.check_keys g = g)
  /\ (paddle_y g <= PADDLE_HEIGHT / 2 ->
        paddle_y (Pong.check_keys g) = paddle_y g + MOVE_AMOUNT)
  /\ (SCREEN_HEIGHT - PADDLE_HEIGHT / 2 + MOVE_AMOUNT <= paddle_y g ->
        paddle_y (Pong.check_keys g) = paddle_y g - MOVE_AMOUNT).
Proof.
  intros Hl Hr. open_pong g. cbn [Pong.holding_left Pong.holding_right] in Hl, Hr.
  subst hl hr. rewrite check_keys_is_step.
  unfold FrameSpec.step_input, FrameSpec.state, FrameSpec.clamp_down,
    FrameSpec.clamp_up, FrameSpec.paddle_height, FrameSpec.arena_height,
    FrameSpec.move_unit.
  to_fields. constants. change (50 / 2) with 25.
  split; [| split]; intros H;
    destruct (Z.ltb_spec 25 py); try lia;
    split_tests; try lia.
  do 3 f_equal. lia.
Qed.

Lemma check_keys_with_both_held_witness :
  Pong.check_keys (FrameSpec.state 100 100 5 2 390 150 0 true true)
  = FrameSpec.state 100 100 5 2 390 150 0 true true
  /\ paddle_y (Pong.check_keys (FrameSpec.state 100 100 5 2 390 22 0 true true))
     = 22 + MOVE_AMOUNT.
Proof.
  destruct (check_keys_with_both_held
              (FrameSpec.state 100 100 5 2 390 150 0 true true)
              eq_refl eq_refl) as [Hmid _].
  destruct (check_keys_with_both_held
              (FrameSpec.state 100 100 5 2 390 22 0 true true)
              eq_refl eq_refl) as [_ [Hlow _]].
  split.
  - apply Hmid. split; reflexivity.
  - apply Hlow. vm_compute. discriminate.
Defined.

(** X8. Whatever keys are held, [check_keys] changes nothing but the
    paddle's height, and that by at most one [MOVE_AMOUNT]: the ball, the
    score, the two flags and the paddle's column are as before.  With no
    key held it changes nothing at all. *)
Theorem check_keys_moves_paddle_one_step_at_most (g : Pong.t) :
  Pong.ball (Pong.check_keys g) = Pong.ball g
  /\ Pong.score (Pong.check_keys g) = Pong.score g
  /\ Pong.holding_left (Pong.check_keys g) = Pong.holding_left g
  /\ Pong.holding_right (Pong.check_keys g) = Pong.holding_right g
  /\ paddle_x (Pong.check_keys g) = paddle_x g
  /\ Z.abs (paddle_y (Pong.check_keys g) - paddle_y g) <= MOVE_AMOUNT
  /\ (Pong.holding_left g = false -> Pong.holding_right g = false ->
      Pong.check_keys g = g).
Proof.
  open_pong g. rewrite check_keys_is_step.
  unfold FrameSpec.step_input, FrameSpec.state, FrameSpec.clamp_down,
    FrameSpec.clamp_up, FrameSpec.paddle_height, FrameSpec.arena_height,
    FrameSpec.move_unit.
  to_fields. constants. change (50 / 2) with 25.
  repeat split.
  - destruct hl, hr; split_tests; lia.
  - intros -> ->. reflexivity.
Qed.

(** ** The hit check and the boundary check, once more *)

(** X9. The hit check never fires twice in a row: applied to its own
    result it changes nothing, because a ball it has turned moves left
    and a ball it left alone still fails the test. *)
Theorem check_hit_idempotent (g : Pong.t) :
  Pong.check_hit (Pong.check_hit g) = Pong.check_hit g
  /\ ~ (overlaps (Pong.check_hit g) /\ 0 < ball_dx (Pong.check_hit g)).
Proof.
  assert (Hpost : ~ (overlaps (Pong.check_hit g) /\ 0 < ball_dx (Pong.check_hit g))).
  { destruct (Z.lt_ge_cases 0 (ball_dx g)) as [Hpos | Hneg].
    - intros [Hov Hdx].
      assert (Hhit : overlaps g).
      { rewrite check_hit_is_step in Hov. unfold FrameSpec.step_hit in Hov.
        destruct (_ && _ && _); exact Hov. }
      rewrite (check_hit_fires g Hhit Hpos) in Hdx.
      unfold ball_dx in Hdx.
      cbn [Pong.ball Ball.velocity Velocity.dx] in Hdx.
      fold (ball_dx g) in Hdx. lia.
    - rewrite check_hit_idle by lia. lia. }
  split; [apply check_hit_idle; exact Hpost | exact Hpost].
Qed.

(** X10. The boundary check changes velocity signs only: the ball's
    centre, the paddle, the score and the flags are as before and each
    speed keeps its magnitude.  After it the ball does not move into a
    wall it overlaps: not leftward with [x < BALL_RADIUS], not downward
    with [y < BALL_RADIUS], not upward with
    [y > SCREEN_HEIGHT - BALL_RADIUS]. *)
Theorem check_bounce_turns_ball_away_from_walls (g : Pong.t) :
  Ball.center (Pong.ball (Pong.check_bounce g)) = Ball.center (Pong.ball g)
  /\ Pong.paddle (Pong.check_bounce g) = Pong.paddle g
  /\ Pong.score (Pong.check_bounce g) = Pong.score g
  /\ Pong.holding_left (Pong.check_bounce g) = Pong.holding_left g
  /\ Pong.holding_right (Pong.check_bounce g) = Pong.holding_right g
  /\ Z.abs (ball_dx (Pong.check_bounce g)) = Z.abs (ball_dx g)
  /\ Z.abs (ball_dy (Pong.check_bounce g)) = Z.abs (ball_dy g)
  /\ (ball_x g < BALL_RADIUS -> 0 <= ball_dx (Pong.check_bounce g))
  /\ (ball_y g < BALL_RADIUS -> 0 <= ball_dy (Pong.check_bounce g))
  /\ (SCREEN_HEIGHT - BALL_RADIUS < ball_y g ->
      ball_dy (Pong.check_bounce g) <= 0).
Proof.
  rewrite check_bounce_is_step, step_bounce_fields.
  open_pong g. unfold FrameSpec.state. to_fields. constants.
  repeat split;
    destruct (Z.ltb_spec bx 10); destruct (Z.ltb_spec vx 0);
    destruct (Z.ltb_spec by_ 10); destruct (Z.ltb_spec vy 0);
    destruct (Z.ltb_spec (300 - 10) by_); destruct (Z.ltb_spec 0 vy);
    cbn [andb]; lia.
Qed.

(** ** The key handlers *)

Lemma handlers_touch_flags_only (K : KeyCodes) (key m : Z) (g : Pong.t) :
  Pong.ball (on_key_press K key m g) = Pong.ball g
  /\ Pong.paddle (on_key_press K key m g) = Pong.paddle g
  /\ Pong.score (on_key_press K key m g) = Pong.score g
  /\ Pong.ball (on_key_release K key m g) = Pong.ball g
  /\ Pong.paddle (on_key_release K key m g) = Pong.paddle g
  /\ Pong.score (on_key_release K key m g) = Pong.score g.
Proof.
  unfold on_key_press, on_key_release.
  destruct ((key =? LEFT K) || (key =? DOWN K));
    destruct ((key =? RIGHT K) || (key =? UP K)); repeat split.
Qed.

(** X11. A key that is none of the four arrows is ignored: pressing or
    releasing it leaves the whole state as it is. *)
Theorem other_keys_are_ignored (K : KeyCodes) (key m : Z) (g : Pong.t) :
  key <> LEFT K -> key <> DOWN K -> key <> RIGHT K -> key <> UP K ->
  on_key_press K key m g = g /\ on_key_release K key m g = g.
Proof.
  intros Hl Hd Hr Hu. unfold on_key_press, on_key_release.
  apply Z.eqb_neq in Hl, Hd, Hr, Hu. rewrite Hl, Hd, Hr, Hu.
  split; reflexivity.
Qed.

Lemma other_keys_are_ignored_witness :
  on_key_press sample_keys 32 0 sample_hit = sample_hit
  /\ on_key_release sample_keys 32 0 sample_hit = sample_hit.
Proof.
  apply (other_keys_are_ignored sample_keys 32 0 sample_hit);
    vm_compute; discriminate.
Defined.

(** X12. A release undoes the press of the same key: the flag the key
    governs is off afterwards, the other flag and the rest of the state
    are as before the press.  In particular, with no key held before,
    press and release give the state back; and a second press of a key
    already held changes nothing.  The modifiers are not looked at. *)
Theorem release_undoes_press (K : KeyCodes) (key m1 m2 : Z) (g : Pong.t) :
  on_key_release K key m2 (on_key_press K key m1 g) = on_key_release K key m2 g
  /\ on_key_press K key m2 (on_key_press K key m1 g) = on_key_press K key m1 g
  /\ (Pong.holding_left g = false -> Pong.holding_right g = false ->
      on_key_release K key m2 (on_key_press K key m1 g) = g).
Proof.
  destruct g as [b p sc hl hr].
  unfold on_key_press, on_key_release, set_holding_left, set_holding_right.
  destruct ((key =? LEFT K) || (key =? DOWN K));
    destruct ((key =? RIGHT K) || (key =? UP K));
    cbn [Pong.ball Pong.paddle Pong.score Pong.holding_left Pong.holding_right];
    repeat split; intros; subst; reflexivity.
Qed.

(** X13. [LEFT] and [DOWN] share one flag, and so do [RIGHT] and [UP]:
    with both keys of a pair pressed, releasing either one turns the flag
    off although the other key is still down, so the paddle stops until a
    key is pressed again. *)
Theorem paired_keys_share_a_flag (K : KeyCodes) (m : Z) (g : Pong.t) :
  Pong.holding_left
    (on_key_release K (DOWN K) m
       (on_key_press K (LEFT K) m (on_key_press K (DOWN K) m g))) = false
  /\ Pong.holding_left
       (on_key_release K (LEFT K) m
          (on_key_press K (DOWN K) m (on_key_press K (LEFT K) m g))) = false
  /\ Pong.holding_right
       (on_key_release K (UP K) m
          (on_key_press K (RIGHT K) m (on_key_press K (UP K) m g))) = false
  /\ Pong.holding_right
       (on_key_release K (RIGHT K) m
          (on_key_press K (UP K) m (on_key_press K (RIGHT K) m g))) = false.
Proof.
  unfold on_key_release.
  rewrite !Z.eqb_refl, !orb_true_r. cbn [orb].
  repeat split;
    match goal with
    | |- context [if ?c then _ else _] => destruct c
    end; reflexivity.
Qed.

(** ** Frames keep the game in play *)

Lemma check_keys_paddle (g : Pong.t) :
  Pong.paddle (Pong.check_keys g)
  = (if Pong.holding_right g then Paddle.move_up else fun p => p)
      ((if Pong.holding_left g then Paddle.move_down else fun p => p)
         (Pong.paddle g)).
Proof.
  destruct g as [b p sc hl hr]. unfold Pong.check_keys, Pong.set_paddle.
  cbn [Pong.holding_left Pong.holding_right Pong.paddle].
  destruct hl, hr; reflexivity.
Qed.

Lemma before_checks_paddle_on_grid (g : Pong.t) :
  on_grid (Pong.paddle g) -> on_grid (Pong.paddle (before_checks g)).
Proof.
  intros H. unfold before_checks. rewrite check_keys_paddle.
  destruct g as [b p sc hl hr]. unfold Pong.set_ball.
  cbn [Pong.holding_left Pong.holding_right Pong.paddle] in *.
  destruct hl, hr; try exact H.
  - apply (apply_move_on_grid Up), (apply_move_on_grid Down), H.
  - apply (apply_move_on_grid Down), H.
  - apply (apply_move_on_grid Up), H.
Qed.

Lemma before_checks_ball (g : Pong.t) :
  ball_x (before_checks g) = ball_x g + ball_dx g
  /\ ball_y (before_checks g) = ball_y g + ball_dy g
  /\ ball_dx (before_checks g) = ball_dx g
  /\ ball_dy (before_checks g) = ball_dy g.
Proof.
  unfold before_checks. rewrite advance_is_step, check_keys_is_step.
  open_pong g. repeat split.
Qed.

Lemma before_checks_bounded (g : Pong.t) :
  ball_in_play g ->
  ball_x g + ball_dx g <= SCREEN_WIDTH ->
  ball_bounded (before_checks g).
Proof.
  intros (Hx & Hxd & Hdx & Hy & Hyd & Hyu & Hdy) Hm.
  destruct (before_checks_ball g) as (Ex & Ey & Edx & Edy).
  unfold ball_bounded. rewrite Ex, Ey, Edx, Edy. constants. lia.
Qed.

Lemma after_miss_bounded (g : Pong.t) (r : RandomSource) :
  ball_bounded (after_miss g r).
Proof.
  destruct (rolled_bounds r) as (Hy & Hdx & Hdy).
  unfold ball_bounded, after_miss, FrameSpec.state. to_fields. constants. lia.
Qed.

Lemma check_hit_bounded (g : Pong.t) :
  ball_bounded g -> ball_bounded (Pong.check_hit g).
Proof.
  intros H. rewrite check_hit_is_step. unfold FrameSpec.step_hit.
  destruct (_ && _ && _); [| exact H].
  unfold ball_bounded, FrameSpec.state in *. to_fields. lia.
Qed.

Lemma check_hit_keeps_paddle (g : Pong.t) :
  Pong.paddle (Pong.check_hit g) = Pong.paddle g.
Proof.
  rewrite check_hit_is_step. unfold FrameSpec.step_hit.
  destruct (_ && _ && _); [| reflexivity].
  open_pong g. reflexivity.
Qed.

Lemma check_bounce_keeps_paddle (g : Pong.t) :
  Pong.paddle (Pong.check_bounce g) = Pong.paddle g.
Proof. rewrite check_bounce_is_step. open_pong g. reflexivity. Qed.

Lemma check_bounce_in_play (g : Pong.t) :
  ball_bounded g -> ball_in_play (Pong.check_bounce g).
Proof.
  rewrite check_bounce_is_step, step_bounce_fields.
  open_pong g. unfold ball_bounded, ball_in_play, FrameSpec.state.
  to_fields. constants. intros (Hx & Hdx & Hy & Hdy).
  destruct (Z.ltb_spec bx 10); destruct (Z.ltb_spec vx 0);
    destruct (Z.ltb_spec by_ 10); destruct (Z.ltb_spec vy 0);
    destruct (Z.ltb_spec (300 - 10) by_); destruct (Z.ltb_spec 0 vy);
    cbn [andb]; lia.
Qed.

(** One frame from a state in play: it returns a state in play, and the
    score moves by [- SCORE_MISS], [0] or [+ SCORE_HIT]. *)
Lemma frame_step (delta_time : Q) (g : Pong.t) (r : RandomSource) :
  in_play g ->
  exists g' r',
    Pong.update delta_time g r = Ok (g', r')
    /\ in_play g'
    /\ Pong.score g - SCORE_MISS <= Pong.score g' <= Pong.score g + SCORE_HIT.
Proof.
  intros (Hball & Hcol & Hgrid).
  destruct (before_checks_fields g) as (_ & Hpx & Hsc).
  pose proof (before_checks_paddle_on_grid g Hgrid) as Hgrid'.
  destruct (Z.lt_ge_cases SCREEN_WIDTH (ball_x g + ball_dx g)) as [Hm | Hm].
  - do 2 eexists. split; [apply update_on_miss; exact Hm |].
    rewrite no_hit_after_miss by congruence.
    destruct (check_bounce_keeps (after_miss (before_checks g) r)) as [_ Hbs].
    split; [split; [| split] |].
    + apply check_bounce_in_play, after_miss_bounded.
    + unfold paddle_x. rewrite check_bounce_keeps_paddle.
      unfold after_miss. cbn [FrameSpec.state Pong.paddle Paddle.center Point.x].
      congruence.
    + rewrite check_bounce_keeps_paddle.
      unfold on_grid, paddle_height_of in *. exact Hgrid'.
    + rewrite Hbs. unfold after_miss. cbn [FrameSpec.state Pong.score].
      rewrite Hsc. constants. lia.
  - do 2 eexists. split; [apply update_on_no_miss; exact Hm |].
    destruct (check_bounce_keeps (Pong.check_hit (before_checks g))) as [_ Hbs].
    split; [split; [| split] |].
    + apply check_bounce_in_play, check_hit_bounded, before_checks_bounded;
        assumption.
    + unfold paddle_x. rewrite check_bounce_keeps_paddle, check_hit_keeps_paddle.
      fold (paddle_x (before_checks g)). congruence.
    + rewrite check_bounce_keeps_paddle, check_hit_keeps_paddle. exact Hgrid'.
    + rewrite Hbs. destruct (check_hit_score (before_checks g)) as [E | E];
        rewrite E, Hsc; constants; lia.
Qed.

(** X14. A frame keeps the game in play.  From a state in play [update]
    returns a state in play: the ball's centre has [0 <= x <= SCREEN_WIDTH]
    and [y] within [MOVE_AMOUNT - 1] of the band
    [[BALL_RADIUS, SCREEN_HEIGHT - BALL_RADIUS]], the ball moves away from
    every wall it overlaps, its speeds keep their rolled magnitudes
    ([|dx|] in [[4, 8]], [|dy|] in [[2, 3]], so it never stops), and the
    paddle stays on its column and grid. *)
Theorem update_keeps_in_play (delta_time : Q) (g : Pong.t) (r : RandomSource) :
  in_play g ->
  exists g' r',
    Pong.update delta_time g r = Ok (g', r')
    /\ in_play g'
    /\ 0 <= ball_x g' <= 400
    /\ 7 <= ball_y g' <= 293
    /\ 4 <= Z.abs (ball_dx g') <= 8
    /\ 2 <= Z.abs (ball_dy g') <= 3
    /\ paddle_x g' = 390
    /\ 21 < paddle_y g' < 279.
Proof.
  intros H. destruct (frame_step delta_time g r H) as (g' & r' & E & Hin & _).
  exists g', r'. split; [exact E |]. split; [exact Hin |].
  destruct Hin as ((Hx & _ & Hdx & Hy & _ & _ & Hdy) & Hcol & (Hgrid & _)).
  unfold paddle_height_of in Hgrid. fold (paddle_y g') in Hgrid.
  rewrite upper_line_value, lower_line_value in Hgrid.
  constants. repeat split; lia.
Qed.

Lemma sample_in_play_in_play : in_play sample_in_play.
Proof.
  unfold in_play, ball_in_play, on_grid, sample_in_play, FrameSpec.state,
    paddle_height_of.
  to_fields. rewrite upper_line_value, lower_line_value. constants.
  change (150 mod 4) with 2. change (Z.abs 6) with 6. change (Z.abs 3) with 3.
  lia.
Qed.

Lemma update_keeps_in_play_witness :
  exists g' r',
    Pong.update 0 sample_in_play (constant_source 0) = Ok (g', r')
    /\ in_play g'
    /\ 0 <= ball_x g' <= 400
    /\ 7 <= ball_y g' <= 293
    /\ 4 <= Z.abs (ball_dx g') <= 8
    /\ 2 <= Z.abs (ball_dy g') <= 3
    /\ paddle_x g' = 390
    /\ 21 < paddle_y g' < 279.
Proof.
  exact (update_keeps_in_play 0 sample_in_play (constant_source 0)
           sample_in_play_in_play).
Defined.

(** ** Whole runs *)

Lemma handlers_keep_in_play (K : KeyCodes) (key m : Z) (g : Pong.t) :
  in_play g ->
  in_play (on_key_press K key m g) /\ in_play (on_key_release K key m g).
Proof.
  intros H.
  destruct (handlers_touch_flags_only K key m g)
    as (Eb & Ep & _ & Eb' & Ep' & _).
  unfold in_play, ball_in_play, ball_x, ball_y, ball_dx, ball_dy, paddle_x in *.
  rewrite Eb, Ep, Eb', Ep'. split; exact H.
Qed.

Lemma handlers_keep_score (K : KeyCodes) (key m : Z) (g : Pong.t) :
  Pong.score (on_key_press K key m g) = Pong.score g
  /\ Pong.score (on_key_release K key m g) = Pong.score g.
Proof.
  destruct (handlers_touch_flags_only K key m g) as (_ & _ & E & _ & _ & E').
  split; assumption.
Qed.

Lemma frames_nonneg (evs : list event) : 0 <= frames evs.
Proof.
  induction evs as [| [dt | k m | k m] evs IH]; cbn [frames]; lia.
Qed.

Lemma play_keeps_in_play (K : KeyCodes) (evs : list event) :
  forall (g : Pong.t) (r : RandomSource),
    in_play g ->
    exists g' r',
      play K evs g r = Ok (g', r')
      /\ in_play g'
      /\ Pong.score g - SCORE_MISS * frames evs <= Pong.score g'
         <= Pong.score g + SCORE_HIT * frames evs.
Proof.
  induction evs as [| e evs IH]; intros g r Hin.
  - exists g, r. cbn [play frames]. split; [reflexivity |].
    split; [exact Hin | lia].
  - pose proof (frames_nonneg evs) as Hn.
    destruct e as [dt | key m | key m]; cbn [play dispatch frames]; unfold bind.
    + destruct (frame_step dt g r Hin) as (g1 & r1 & E & Hin1 & Hs).
      rewrite E.
      destruct (IH g1 r1 Hin1) as (g' & r' & E' & Hin' & Hs').
      exists g', r'. split; [exact E' |]. split; [exact Hin' |].
      constants. lia.
    + unfold ret.
      destruct (handlers_keep_in_play K key m g Hin) as [Hp _].
      destruct (handlers_keep_score K key m g) as [Es _].
      destruct (IH _ r Hp) as (g' & r' & E' & Hin' & Hs').
      exists g', r'. split; [exact E' |]. split; [exact Hin' |].
      rewrite Es in Hs'. exact Hs'.
    + unfold ret.
      destruct (handlers_keep_in_play K key m g Hin) as [_ Hp].
      destruct (handlers_keep_score K key m g) as [_ Es].
      destruct (IH _ r Hp) as (g' & r' & E' & Hin' & Hs').
      exists g', r'. split; [exact E' |]. split; [exact Hin' |].
      rewrite Es in Hs'. exact Hs'.
Qed.

Lemma init_in_play (r : RandomSource) :
  exists g,
    Pong.init_body r = Ok (g, next (next (next r)))
    /\ in_play g /\ Pong.score g = 0.
Proof.
  eexists.
  split; [unfold Pong.init_body, bind; rewrite Ball_init_eq; reflexivity |].
  destruct (rolled_bounds r) as (Hy & Hdx & Hdy).
  split; [| reflexivity].
  unfold in_play, ball_in_play. to_fields.
  split; [constants; lia |]. split; [reflexivity |]. apply init_on_grid.
Qed.

(** With a window library that accepts the program's size, [game] is the
    program: the whole constructor at [SCREEN_WIDTH] by [SCREEN_HEIGHT],
    then the run. *)
Lemma game_is_program_when_window_accepts
    (window_init : WindowInit) (K : KeyCodes) (evs : list event)
    (r : RandomSource) :
  window_init SCREEN_WIDTH SCREEN_HEIGHT = Ok tt ->
  (g <- Pong.init window_init SCREEN_WIDTH SCREEN_HEIGHT ;; play K evs g) r
  = game K evs r.
Proof.
  intros Hok. unfold game, bind, Pong.init. rewrite Hok. reflexivity.
Qed.

(** X15. Every game stays in play.  Whatever keys are pressed and
    released, in whatever order with the frames, and whatever the
    generator holds, the program never raises and the state it reaches
    is in play: the ball's centre is inside the arena horizontally
    ([0 <= x <= 400]) and at most 3 outside the band [[10, 290]]
    vertically, and the paddle's centre is on [x = 390] with
    [22 <= y <= 278].  After [n] frames the score is between [-5 n] and
    [n]. *)
Theorem game_stays_in_play (K : KeyCodes) (evs : list event) (r : RandomSource) :
  exists g r',
    game K evs r = Ok (g, r')
    /\ in_play g
    /\ 0 <= ball_x g <= 400
    /\ 7 <= ball_y g <= 293
    /\ paddle_x g = 390
    /\ 22 <= paddle_y g <= 278
    /\ - SCORE_MISS * frames evs <= Pong.score g <= SCORE_HIT * frames evs.
Proof.
  destruct (init_in_play r) as (g0 & E0 & Hin0 & Hs0).
  destruct (play_keeps_in_play K evs g0 (next (next (next r))) Hin0)
    as (g & r' & E & Hin & Hs).
  exists g, r'. unfold game, bind. rewrite E0.
  split; [exact E |]. split; [exact Hin |].
  destruct Hin as ((Hx & _ & _ & Hy & _) & Hcol & (Hgrid & Hmod)).
  unfold paddle_height_of in Hgrid, Hmod. fold (paddle_y g) in Hgrid, Hmod.
  rewrite upper_line_value, lower_line_value in Hgrid.
  rewrite Hs0 in Hs. constants.
  repeat split; try lia; euclid.
Qed.

(** ** Scoring over consecutive frames *)

Lemma check_hit_keeps_center (g : Pong.t) :
  ball_x (Pong.check_hit g) = ball_x g /\ ball_y (Pong.check_hit g) = ball_y g.
Proof.
  rewrite check_hit_is_step. unfold FrameSpec.step_hit.
  destruct (_ && _ && _); split; reflexivity.
Qed.

Lemma check_bounce_idle (g : Pong.t) :
  BALL_RADIUS <= ball_x g ->
  BALL_RADIUS <= ball_y g <= SCREEN_HEIGHT - BALL_RADIUS ->
  Pong.check_bounce g = g.
Proof.
  rewrite check_bounce_is_step, step_bounce_fields.
  open_pong g. unfold FrameSpec.state. to_fields. intros Hx Hy.
  destruct (Z.ltb_spec bx BALL_RADIUS); [lia |].
  destruct (Z.ltb_spec by_ BALL_RADIUS); [lia |].
  destruct (Z.ltb_spec (SCREEN_HEIGHT - BALL_RADIUS) by_); [lia |].
  reflexivity.
Qed.

Lemma check_bounce_dx_off_left_wall (g : Pong.t) :
  BALL_RADIUS <= ball_x g -> ball_dx (Pong.check_bounce g) = ball_dx g.
Proof.
  rewrite check_bounce_is_step, step_bounce_fields.
  open_pong g. unfold FrameSpec.state. to_fields. intros Hx.
  destruct (Z.ltb_spec bx BALL_RADIUS); [lia | reflexivity].
Qed.

(** The state one frame after [sample_hit]: the ball has reached the
    paddle and been turned, the hit is scored. *)
Lemma sample_hit_frame :
  Pong.update 0 sample_hit (constant_source 0)
  = Ok (FrameSpec.state 385 150 (-5) 0 390 150 1 false false, constant_source 0).
Proof. vm_compute. reflexivity. Qed.

(** X16. No hit is scored in two consecutive frames.  With the paddle on
    its column, when a frame raises the score by [SCORE_HIT] the ball
    leaves it moving left and no draw has been read; the next frame
    reads no draw either and leaves the score as it is. *)
Theorem no_hit_in_consecutive_frames
    (dt1 dt2 : Q) (g g1 : Pong.t) (r r1 : RandomSource) :
  paddle_x g = SCREEN_WIDTH - PADDLE_WIDTH ->
  Pong.update dt1 g r = Ok (g1, r1) ->
  Pong.score g1 = Pong.score g + SCORE_HIT ->
  r1 = r
  /\ ball_dx g1 < 0
  /\ exists g2,
       Pong.update dt2 g1 r1 = Ok (g2, r1)
       /\ Pong.score g2 = Pong.score g1.
Proof.
  intros Hcol E Hs.
  destruct (before_checks_fields g) as (Hbx & Hpx & Hsc).
  destruct (Z.lt_ge_cases SCREEN_WIDTH (ball_x g + ball_dx g)) as [Hm | Hm].
  { exfalso. rewrite (update_on_miss dt1 g r Hm) in E.
    injection E as E _. subst g1.
    rewrite no_hit_after_miss in Hs by congruence.
    destruct (check_bounce_keeps (after_miss (before_checks g) r)) as [_ Hbs].
    rewrite Hbs in Hs. unfold after_miss in Hs.
    cbn [FrameSpec.state Pong.score] in Hs. rewrite Hsc in Hs.
    constants. lia. }
  rewrite (update_on_no_miss dt1 g r Hm) in E. injection E as E Er.
  split; [congruence |]. subst r1.
  set (b := before_checks g) in *.
  destruct (check_bounce_keeps (Pong.check_hit b)) as [Hcx Hcs].
  assert (Hfire : overlaps b /\ 0 < ball_dx b).
  { destruct (Z.lt_ge_cases 0 (ball_dx b)) as [Hpos | Hneg].
    - split; [| exact Hpos].
      rewrite <- E, Hcs in Hs.
      rewrite check_hit_is_step in Hs. unfold FrameSpec.step_hit in Hs.
      unfold overlaps.
      destruct (Z.ltb_spec (Z.abs (ball_x b - paddle_x b))
                           (FrameSpec.paddle_width / 2 + FrameSpec.radius));
        [| cbn [andb] in Hs; rewrite Hsc in Hs; constants; lia].
      destruct (Z.ltb_spec (Z.abs (ball_y b - paddle_y b))
                           (FrameSpec.paddle_height / 2 + FrameSpec.radius));
        [| cbn [andb] in Hs; rewrite Hsc in Hs; constants; lia].
      split; assumption.
    - exfalso. rewrite <- E, Hcs in Hs.
      rewrite check_hit_idle in Hs by lia.
      rewrite Hsc in Hs. constants. lia. }
  destruct Hfire as [Hov Hpos].
  pose proof (check_hit_fires b Hov Hpos) as Hhit.
  assert (Hnear : SCREEN_WIDTH - PADDLE_WIDTH - (PADDLE_WIDTH / 2 + BALL_RADIUS)
                  < ball_x b).
  { destruct Hov as [Hx _]. rewrite Hpx, Hcol in Hx. lia. }
  assert (Hx1 : ball_x g1 = ball_x b).
  { rewrite <- E, Hcx. apply check_hit_keeps_center. }
  assert (Hd1 : ball_dx g1 = - ball_dx b).
  { rewrite <- E, check_bounce_dx_off_left_wall.
    - rewrite Hhit. reflexivity.
    - destruct (check_hit_keeps_center b) as [Ex _]. rewrite Ex.
      constants. change (10 / 2) with 5 in Hnear. lia. }
  split; [lia |].
  assert (Hm2 : ball_x g1 + ball_dx g1 <= SCREEN_WIDTH) by lia.
  eexists. split; [apply (update_on_no_miss dt2 g1 r Hm2) |].
  destruct (check_bounce_keeps (Pong.check_hit (before_checks g1))) as [_ Hcs2].
  destruct (before_checks_fields g1) as (_ & _ & Hsc2).
  destruct (before_checks_ball g1) as (_ & _ & Hdx2 & _).
  rewrite Hcs2, check_hit_idle; [exact Hsc2 |].
  intros [_ Hp]. lia.
Qed.

Lemma no_hit_in_consecutive_frames_witness :
  constant_source 0 = constant_source 0
  /\ ball_dx (FrameSpec.state 385 150 (-5) 0 390 150 1 false false) < 0
  /\ exists g2,
       Pong.update 0 (FrameSpec.state 385 150 (-5) 0 390 150 1 false false)
                   (constant_source 0)
       = Ok (g2, constant_source 0)
       /\ Pong.score g2
          = Pong.score (FrameSpec.state 385 150 (-5) 0 390 150 1 false false).
Proof.
  apply (no_hit_in_consecutive_frames 0 0 sample_hit
           (FrameSpec.state 385 150 (-5) 0 390 150 1 false false)
           (constant_source 0) (constant_source 0)).
  - reflexivity.
  - exact sample_hit_frame.
  - reflexivity.
Defined.

Lemma frame_without_miss (dt : Q) (g : Pong.t) (r : RandomSource) :
  in_play g ->
  ball_x g + 2 * MOVE_AMOUNT <= SCREEN_WIDTH ->
  exists g',
    Pong.update dt g r = Ok (g', r)
    /\ in_play g'
    /\ ball_x g' <= ball_x g + 2 * MOVE_AMOUNT
    /\ Pong.score g <= Pong.score g'.
Proof.
  intros Hin Hroom.
  assert (Hdx : ball_dx g <= 2 * MOVE_AMOUNT).
  { destruct Hin as ((_ & _ & Hdx & _) & _). lia. }
  assert (Hm : ball_x g + ball_dx g <= SCREEN_WIDTH) by lia.
  destruct (frame_step dt g r Hin) as (g' & r' & E & Hin' & _).
  rewrite (update_on_no_miss dt g r Hm) in E. injection E as E Er.
  exists g'. rewrite (update_on_no_miss dt g r Hm), E.
  split; [reflexivity |]. split; [exact Hin' |].
  destruct (check_bounce_keeps (Pong.check_hit (before_checks g))) as [Hcx Hcs].
  destruct (check_hit_keeps_center (before_checks g)) as [Hhx _].
  destruct (before_checks_fields g) as (Hbx & _ & Hsc).
  rewrite <- E, Hcx, Hhx, Hbx, Hcs. split; [lia |].
  destruct (check_hit_score (before_checks g)) as [Es | Es];
    rewrite Es, Hsc; constants; lia.
Qed.

(** X17. A miss needs room to happen.  From a state in play whose ball
    is at [x], a run with [n] frames and [x + 2 * MOVE_AMOUNT * n <=
    SCREEN_WIDTH] scores no miss: it reads no draw, the score does not go
    down, and the state stays in play.  After a restart, at [x = 0], this
    covers the next 50 frames. *)
Theorem no_miss_while_ball_cannot_reach_edge
    (K : KeyCodes) (evs : list event) (g : Pong.t) (r : RandomSource) :
  in_play g ->
  ball_x g + 2 * MOVE_AMOUNT * frames evs <= SCREEN_WIDTH ->
  exists g',
    play K evs g r = Ok (g', r)
    /\ in_play g'
    /\ Pong.score g <= Pong.score g'.
Proof.
  revert g. induction evs as [| e evs IH]; intros g Hin Hroom.
  - exists g. cbn [play]. split; [reflexivity |]. split; [exact Hin | lia].
  - pose proof (frames_nonneg evs) as Hn.
    destruct e as [dt | key m | key m]; cbn [play dispatch frames] in *;
      unfold bind.
    + destruct (frame_without_miss dt g r Hin) as (g1 & E & Hin1 & Hx1 & Hs1);
        [constants; lia |].
      rewrite E.
      destruct (IH g1 Hin1) as (g' & E' & Hin' & Hs'); [constants; lia |].
      exists g'. split; [exact E' |]. split; [exact Hin' | lia].
    + unfold ret.
      destruct (handlers_keep_in_play K key m g Hin) as [Hp _].
      destruct (handlers_touch_flags_only K key m g) as (Eb & _ & Es & _).
      destruct (IH _ Hp) as (g' & E' & Hin' & Hs').
      { unfold ball_x. rewrite Eb. exact Hroom. }
      exists g'. split; [exact E' |]. split; [exact Hin' | lia].
    + unfold ret.
      destruct (handlers_keep_in_play K key m g Hin) as [_ Hp].
      destruct (handlers_touch_flags_only K key m g) as (_ & _ & _ & Eb & _ & Es).
      destruct (IH _ Hp) as (g' & E' & Hin' & Hs').
      { unfold ball_x. rewrite Eb. exact Hroom. }
      exists g'. split; [exact E' |]. split; [exact Hin' | lia].
Qed.

Lemma no_miss_while_ball_cannot_reach_edge_witness :
  exists g',
    play sample_keys [Update 0; KeyPress 65362 0; Update 0; KeyRelease 65362 0]
         sample_in_play (constant_source 0)
    = Ok (g', constant_source 0)
    /\ in_play g'
    /\ Pong.score sample_in_play <= Pong.score g'.
Proof.
  apply (no_miss_while_ball_cannot_reach_edge sample_keys
           [Update 0; KeyPress 65362 0; Update 0; KeyRelease 65362 0]
           sample_in_play (constant_source 0)).
  - exact sample_in_play_in_play.
  - vm_compute. discriminate.
Defined.

(** X18. In free flight a frame is the advance and the key handling
    alone.  With the paddle on its column, when the advanced centre is
    at least [BALL_RADIUS] from the left wall, at least
    [PADDLE_WIDTH / 2 + BALL_RADIUS] left of the paddle's centre and
    inside [[BALL_RADIUS, SCREEN_HEIGHT - BALL_RADIUS]] vertically, none
    of the three checks acts: the ball moves by its velocity, which it
    keeps, the score is unchanged and no draw is read. *)
Theorem update_in_free_flight (delta_time : Q) (g : Pong.t) (r : RandomSource) :
  paddle_x g = SCREEN_WIDTH - PADDLE_WIDTH ->
  BALL_RADIUS <= ball_x g + ball_dx g ->
  ball_x g + ball_dx g
  <= SCREEN_WIDTH - PADDLE_WIDTH - (PADDLE_WIDTH / 2 + BALL_RADIUS) ->
  BALL_RADIUS <= ball_y g + ball_dy g <= SCREEN_HEIGHT - BALL_RADIUS ->
  exists g',
    Pong.update delta_time g r = Ok (g', r)
    /\ g' = Pong.check_keys (Pong.set_ball (Ball.advance (Pong.ball g)) g)
    /\ Pong.ball g' = Ball.advance (Pong.ball g)
    /\ Pong.score g' = Pong.score g.
Proof.
  intros Hcol Hleft Hright Hy.
  destruct (before_checks_fields g) as (Hbx & Hpx & Hsc).
  destruct (before_checks_ball g) as (_ & Hby & _).
  assert (Hm : ball_x g + ball_dx g <= SCREEN_WIDTH).
  { constants. change (10 / 2) with 5 in Hright. lia. }
  exists (before_checks g).
  rewrite (update_on_no_miss delta_time g r Hm).
  rewrite check_hit_idle.
  - rewrite check_bounce_idle by (rewrite ?Hbx, ?Hby; assumption).
    split; [reflexivity |]. split; [reflexivity |].
    split; [| exact Hsc].
    unfold before_checks. rewrite check_keys_is_step. open_pong g. reflexivity.
  - intros [[Hx _] _]. rewrite Hbx, Hpx, Hcol in Hx. lia.
Qed.

Lemma update_in_free_flight_witness :
  exists g',
    Pong.update 0 sample_in_play (constant_source 0) = Ok (g', constant_source 0)
    /\ g' = Pong.check_keys
              (Pong.set_ball (Ball.advance (Pong.ball sample_in_play)) sample_in_play)
    /\ Pong.ball g' = Ball.advance (Pong.ball sample_in_play)
    /\ Pong.score g' = Pong.score sample_in_play.
Proof.
  apply (update_in_free_flight 0 sample_in_play (constant_source 0)).
  - reflexivity.
  - vm_compute. discriminate.
  - vm_compute. discriminate.
  - split; vm_compute; discriminate.
Defined.

(** ** The miss check and the hit of a frame *)

(** X19. The miss check always returns, and never fires twice in a row.
    After it the ball is not past the right edge, so a second check on
    its result changes nothing and reads no draw.  It leaves the paddle
    and the flags alone and lowers the score by [SCORE_MISS] exactly
    when the ball it received was past the edge, in which case it reads
    three draws. *)
Theorem check_miss_settles (g : Pong.t) (r : RandomSource) :
  exists g1 r1,
    Pong.check_miss g r = Ok (g1, r1)
    /\ ball_x g1 <= SCREEN_WIDTH
    /\ Pong.check_miss g1 r1 = Ok (g1, r1)
    /\ paddle_x g1 = paddle_x g /\ paddle_y g1 = paddle_y g
    /\ Pong.holding_left g1 = Pong.holding_left g
    /\ Pong.holding_right g1 = Pong.holding_right g
    /\ ((SCREEN_WIDTH < ball_x g
         /\ Pong.score g1 = Pong.score g - SCORE_MISS
         /\ ball_x g1 = 0
         /\ r1 = next (next (next r)))
        \/ (ball_x g <= SCREEN_WIDTH /\ g1 = g /\ r1 = r)).
Proof.
  destruct (Z.lt_ge_cases SCREEN_WIDTH (ball_x g)) as [Hm | Hm].
  - exists (after_miss g r), (next (next (next r))).
    split; [apply check_miss_fires; exact Hm |].
    assert (Hx : ball_x (after_miss g r) = 0) by reflexivity.
    split; [rewrite Hx; constants; lia |].
    split; [apply check_miss_idle; rewrite Hx; constants; lia |].
    repeat split. left. repeat split. exact Hm.
  - exists g, r. split; [apply check_miss_idle; exact Hm |].
    split; [exact Hm |].
    split; [apply check_miss_idle; exact Hm |].
    repeat split. right. repeat split. exact Hm.
Qed.

(** X20. A frame scores a hit on the paddle as the keys of that frame
    have moved it.  With the paddle on its column, when the advanced
    ball is not past the right edge, moves right and overlaps the paddle
    that [check_keys] leaves, the frame reads no draw, raises the score
    by [SCORE_HIT], turns the horizontal velocity around and leaves the
    ball at the advanced centre. *)
Theorem update_scores_hit (delta_time : Q) (g : Pong.t) (r : RandomSource) :
  paddle_x g = SCREEN_WIDTH - PADDLE_WIDTH ->
  ball_x g + ball_dx g <= SCREEN_WIDTH ->
  0 < ball_dx g ->
  overlaps (Pong.check_keys (Pong.set_ball (Ball.advance (Pong.ball g)) g)) ->
  exists g',
    Pong.update delta_time g r = Ok (g', r)
    /\ Pong.score g' = Pong.score g + SCORE_HIT
    /\ ball_dx g' = - ball_dx g
    /\ ball_x g' = ball_x g + ball_dx g
    /\ ball_y g' = ball_y g + ball_dy g.
Proof.
  intros Hcol Hm Hpos Hov. fold (before_checks g) in Hov.
  destruct (before_checks_fields g) as (Hbx & Hpx & Hsc).
  destruct (before_checks_ball g) as (_ & Hby & Hdx & _).
  eexists. split; [apply (update_on_no_miss delta_time g r Hm) |].
  assert (Hpos' : 0 < ball_dx (before_checks g)) by lia.
  pose proof (check_hit_fires (before_checks g) Hov Hpos') as Hhit.
  destruct (check_bounce_keeps (Pong.check_hit (before_checks g))) as [Hcx Hcs].
  destruct (check_hit_keeps_center (before_checks g)) as [Hhx Hhy].
  assert (Hnear : BALL_RADIUS <= ball_x (before_checks g)).
  { destruct Hov as [Hx _]. rewrite Hpx, Hcol in Hx. constants.
    change (10 / 2) with 5 in Hx. lia. }
  split; [rewrite Hcs, Hhit; cbn [Pong.score]; congruence |].
  split.
  { rewrite check_bounce_dx_off_left_wall by (rewrite Hhx; exact Hnear).
    rewrite Hhit. unfold ball_dx at 1. cbn [Pong.ball Ball.velocity Velocity.dx].
    congruence. }
  split; [rewrite Hcx, Hhx; exact Hbx |].
  assert (Ecy : ball_y (Pong.check_bounce (Pong.check_hit (before_checks g)))
                = ball_y (Pong.check_hit (before_checks g))).
  { rewrite check_bounce_is_step. reflexivity. }
  rewrite Ecy, Hhy. exact Hby.
Qed.

Lemma update_scores_hit_witness :
  exists g',
    Pong.update 0 sample_hit (constant_source 0) = Ok (g', constant_source 0)
    /\ Pong.score g' = Pong.score sample_hit + SCORE_HIT
    /\ ball_dx g' = - ball_dx sample_hit
    /\ ball_x g' = ball_x sample_hit + ball_dx sample_hit
    /\ ball_y g' = ball_y sample_hit + ball_dy sample_hit.
Proof.
  apply (update_scores_hit 0 sample_hit (constant_source 0)).
  - reflexivity.
  - vm_compute. discriminate.
  - reflexivity.
  - unfold overlaps. split; reflexivity.
Defined.

(** ** From a key to the paddle *)

Lemma update_paddle (delta_time : Q) (g : Pong.t) (r : RandomSource) :
  exists g' r',
    Pong.update delta_time g r = Ok (g', r')
    /\ paddle_x g' = paddle_x (Pong.check_keys g)
    /\ paddle_y g' = paddle_y (Pong.check_keys g).
Proof.
  assert (Hp : Pong.paddle (before_checks g) = Pong.paddle (Pong.check_keys g)).
  { unfold before_checks. rewrite !check_keys_paddle.
    destruct g as [b p sc hl hr]. reflexivity. }
  destruct (Z.lt_ge_cases SCREEN_WIDTH (ball_x g + ball_dx g)) as [Hm | Hm].
  - do 2 eexists. split; [apply update_on_miss; exact Hm |].
    unfold paddle_x, paddle_y.
    rewrite check_bounce_keeps_paddle, check_hit_keeps_paddle, <- Hp.
    split; reflexivity.
  - do 2 eexists. split; [apply update_on_no_miss; exact Hm |].
    unfold paddle_x, paddle_y.
    rewrite check_bounce_keeps_paddle, check_hit_keeps_paddle, <- Hp.
    split; reflexivity.
Qed.

(** X21. What a key does to the paddle.  From a state with no key held,
    pressing [UP] or [RIGHT] makes the next frame raise the paddle's
    centre by [MOVE_AMOUNT] if it is below
    [SCREEN_HEIGHT - PADDLE_HEIGHT / 2], and pressing [DOWN] or [LEFT]
    makes it lower the centre by [MOVE_AMOUNT] if it is above
    [PADDLE_HEIGHT / 2]; the key must not also be one of the other pair.
    The column is unchanged. *)
Theorem arrow_key_moves_paddle_next_frame
    (K : KeyCodes) (key m : Z) (delta_time : Q) (g : Pong.t) (r : RandomSource) :
  Pong.holding_left g = false ->
  Pong.holding_right g = false ->
  exists g' r',
    Pong.update delta_time (on_key_press K key m g) r = Ok (g', r')
    /\ paddle_x g' = paddle_x g
    /\ ((key = UP K \/ key = RIGHT K) -> key <> LEFT K -> key <> DOWN K ->
        paddle_y g < SCREEN_HEIGHT - PADDLE_HEIGHT / 2 ->
        paddle_y g' = paddle_y g + MOVE_AMOUNT)
    /\ ((key = DOWN K \/ key = LEFT K) -> key <> RIGHT K -> key <> UP K ->
        PADDLE_HEIGHT / 2 < paddle_y g ->
        paddle_y g' = paddle_y g - MOVE_AMOUNT).
Proof.
  intros Hl Hr.
  destruct (update_paddle delta_time (on_key_press K key m g) r)
    as (g' & r' & E & Hx & Hy).
  exists g', r'. split; [exact E |].
  rewrite Hx, Hy. clear E Hx Hy.
  rewrite check_keys_is_step.
  destruct g as [b [[px py]] sc hl hr].
  cbn [Pong.holding_left Pong.holding_right] in Hl, Hr. subst hl hr.
  unfold on_key_press, set_holding_left, set_holding_right,
    FrameSpec.step_input, FrameSpec.state, FrameSpec.clamp_down,
    FrameSpec.clamp_up, FrameSpec.paddle_height, FrameSpec.arena_height,
    FrameSpec.move_unit.
  split; [| split].
  - destruct ((key =? LEFT K) || (key =? DOWN K));
      destruct ((key =? RIGHT K) || (key =? UP K)); reflexivity.
  - intros Hkey Hnl Hnd Hbelow.
    apply Z.eqb_neq in Hnl, Hnd. rewrite Hnl, Hnd. cbn [orb].
    assert (Hk : (key =? RIGHT K) || (key =? UP K) = true).
    { destruct Hkey as [-> | ->]; rewrite Z.eqb_refl;
        [apply orb_true_r | reflexivity]. }
    rewrite Hk. to_fields.
    destruct (Z.ltb_spec py (SCREEN_HEIGHT - PADDLE_HEIGHT / 2));
      [reflexivity | lia].
  - intros Hkey Hnr Hnu Habove.
    apply Z.eqb_neq in Hnr, Hnu. rewrite Hnr, Hnu. cbn [orb].
    assert (Hk : (key =? LEFT K) || (key =? DOWN K) = true).
    { destruct Hkey as [-> | ->]; rewrite Z.eqb_refl;
        [apply orb_true_r | reflexivity]. }
    rewrite Hk. to_fields.
    destruct (Z.ltb_spec (PADDLE_HEIGHT / 2) py); [reflexivity | lia].
Qed.

Lemma arrow_key_moves_paddle_next_frame_witness :
  exists g' r',
    Pong.update 0 (on_key_press sample_keys 65362 0 sample_in_play)
                (constant_source 0) = Ok (g', r')
    /\ paddle_x g' = paddle_x sample_in_play
    /\ paddle_y g' = paddle_y sample_in_play + MOVE_AMOUNT.
Proof.
  destruct (arrow_key_moves_paddle_next_frame sample_keys 65362 0 0
              sample_in_play (constant_source 0) eq_refl eq_refl)
    as (g' & r' & E & Hx & Hup & _).
  exists g', r'. split; [exact E |]. split; [exact Hx |].
  apply Hup.
  - left. reflexivity.
  - vm_compute. discriminate.
  - vm_compute. discriminate.
  - reflexivity.
Defined.
